(** * expense-agent: the chat backend and the ingestion script

    A shallow embedding of [backend/index.js] and [backend/ingest.js].

    - JavaScript values that the code inspects are the type [JsVal];
      [truthy] is the test behind [if (!message)].
    - Code that awaits a hosted service is written in the monad [IO]:
      a state transformer over [Env] (the hosted [claims] table, the
      console and the log of the requests sent out) whose result is a
      [Completion]: a value, or the error of a [throw] or of a rejected
      promise.  [try_catch] is the [try { ... } catch (error) { ... }] of
      the source.
    - What the imported packages decide is a parameter: zod's e-mail test
      and the rendering of numbers and dates in template strings
      ([Libraries]), the agent executor ([Orchestrator]), the constructors
      of the clients ([Clients]).  The theorems hold for every instance. *)

From Stdlib Require Import String Ascii List Bool Arith ZArith QArith Lia.
From Stdlib Require Import DecimalString.
Import ListNotations.

Close Scope Q_scope.
Open Scope list_scope.
Open Scope string_scope.

(** ** JavaScript values *)

Module Js.

(** The values a JSON request body or a tool input can carry.  Numbers are
    rationals: the code only passes them through, and JSON has no NaN or
    infinity. *)
#[warnings="-register-all"]
Inductive JsVal : Type :=
| JsUndefined
| JsNull
| JsBool (b : bool)
| JsNumber (q : Q)
| JsString (s : string)
| JsObject (fields : list (string * JsVal)).

(** [obj.key], and the [const { key } = obj] of a destructuring:
    [undefined] when the object has no such property. *)
Fixpoint prop (fields : list (string * JsVal)) (key : string) : JsVal :=
  match fields with
  | [] => JsUndefined
  | (k, v) :: rest => if String.eqb k key then v else prop rest key
  end.

(** ToBoolean: [undefined], [null], [false], [0] and [""] are falsy. *)
Definition truthy (v : JsVal) : bool :=
  match v with
  | JsUndefined => false
  | JsNull => false
  | JsBool b => b
  | JsNumber q => negb (Qnum q =? 0)%Z
  | JsString s => negb (String.eqb s "")
  | JsObject _ => true
  end.

(** [new Error(message)]. *)
Record JsError : Type := Error { err_message : string }.

(** How a statement, or an awaited promise, ends. *)
Inductive Completion (A : Type) : Type :=
| Normal (a : A)
| Thrown (e : JsError).
Arguments Normal {A} a.
Arguments Thrown {A} e.

(** [haystack.includes(needle)] as a proposition. *)
Definition includes (haystack needle : string) : Prop :=
  exists before after, haystack = before ++ needle ++ after.

End Js.
Import Js.

(** ** The hosted [claims] table *)

(** The object literal handed to [insert]. *)
Module NewClaim.
Record t : Type := mk {
  email : string;
  description : string;
  amount : Q;
  status : string
}.
End NewClaim.

(** A stored row: the inserted columns and the two the server fills in. *)
Module Claim.
Record t : Type := mk {
  id : Z;
  email : string;
  description : string;
  amount : Q;
  status : string;
  created_at : string
}.
End Claim.

(** The ways a request to the store can go wrong: the awaited promise
    resolves to [{ error }], or it rejects. *)
Inductive DbFault : Type :=
| ReplyError (message : string)
| Rejects (e : JsError).

Record Supabase : Type := {
  claims : list Claim.t;        (* the rows of the table, oldest first *)
  outage : option DbFault;      (* [None]: the store is reachable *)
  now : string                  (* the server's clock, for [created_at] *)
}.

(** An entry of the backend's [chatHistory] array. *)
Record ChatMessage : Type := { role : string; content : JsVal }.

(** A request that left the process. *)
Inductive Call : Type :=
| CallInsert (row : NewClaim.t)
| CallSelect (email : string)
| CallAgent (input : JsVal) (chat_history : list ChatMessage).

Record Env : Type := {
  supabase : Supabase;
  console : list string;
  calls : list Call
}.

(** ** The monad of awaiting code *)

Definition IO (A : Type) : Type := Env -> Completion A * Env.

Definition ret {A} (a : A) : IO A := fun env => (Normal a, env).

Definition throw {A} (e : JsError) : IO A := fun env => (Thrown e, env).

Definition bind {A B} (m : IO A) (k : A -> IO B) : IO B :=
  fun env =>
    match m env with
    | (Normal a, env') => k a env'
    | (Thrown e, env') => (Thrown e, env')
    end.

Definition try_catch {A} (body : IO A) (handler : JsError -> IO A) : IO A :=
  fun env =>
    match body env with
    | (Normal a, env') => (Normal a, env')
    | (Thrown e, env') => handler e env'
    end.

Declare Scope io_scope.
Delimit Scope io_scope with io.
Notation "x <- m ;; k" := (bind m (fun x => k))
  (at level 100, m at next level, right associativity) : io_scope.
Notation "m ;; k" := (bind m (fun _ => k))
  (at level 100, right associativity) : io_scope.
Notation "'try' body 'catch' e => handler" :=
  (try_catch body (fun e => handler))
  (at level 100, e name, body at level 200, handler at level 200) : io_scope.

Definition record_call (c : Call) : IO unit :=
  fun env =>
    (Normal tt,
     {| supabase := supabase env; console := console env;
        calls := (calls env ++ [c])%list |}).

Definition console_log (line : string) : IO unit :=
  fun env =>
    (Normal tt,
     {| supabase := supabase env; console := (console env ++ [line])%list;
        calls := calls env |}).

Definition console_error (label : string) (e : JsError) : IO unit :=
  console_log (label ++ " " ++ err_message e).

(** *** The store's side of [insert] and [select]

    The store is a hosted service.  Its model here is the least the spec
    says of it: a table of rows that a successful insert extends by one
    row, with an id and a creation time of the server's making, and that a
    select filters by e-mail; a request to it can also fail, in one of the
    two ways of [DbFault]. *)

Record InsertReply : Type := { insert_error : option string }.

Record SelectReply : Type := {
  select_data : option (list Claim.t);
  select_error : option string
}.

Definition stored (db : Supabase) (row : NewClaim.t) : Claim.t :=
  {| Claim.id := Z.of_nat (S (length (claims db)));
     Claim.email := NewClaim.email row;
     Claim.description := NewClaim.description row;
     Claim.amount := NewClaim.amount row;
     Claim.status := NewClaim.status row;
     Claim.created_at := now db |}.

(** Modelled from the spec: the Claims Store's answer to
    [await client.from('claims').insert(row)].  A reachable store appends
    the row and answers [{ error: null }]; otherwise it answers with an
    error, or the promise rejects, and the table stays as it is. *)
Definition claims_insert (row : NewClaim.t) : IO InsertReply :=
  (record_call (CallInsert row) ;;
   fun env =>
     let db := supabase env in
     match outage db with
     | None =>
         (Normal {| insert_error := None |},
          {| supabase := {| claims := (claims db ++ [stored db row])%list;
                            outage := outage db; now := now db |};
             console := console env; calls := calls env |})
     | Some (ReplyError m) => (Normal {| insert_error := Some m |}, env)
     | Some (Rejects e) => (Thrown e, env)
     end)%io.

(** Modelled from the spec: the Claims Store's answer to
    [await client.from('claims').select(...).eq('email', email)]: the rows
    with that e-mail, oldest first. *)
Definition claims_select_eq_email (email : string) : IO SelectReply :=
  (record_call (CallSelect email) ;;
   fun env =>
     let db := supabase env in
     match outage db with
     | None =>
         (Normal {| select_data :=
                      Some (filter (fun c => String.eqb (Claim.email c) email)
                                   (claims db));
                    select_error := None |}, env)
     | Some (ReplyError m) =>
         (Normal {| select_data := None; select_error := Some m |}, env)
     | Some (Rejects e) => (Thrown e, env)
     end)%io.

(** ** What the imported packages decide *)

Class Libraries : Type := {
  (** zod's [.email()] check on a string *)
  is_email : string -> bool;
  (** a number inside a template string *)
  number_toString : Q -> string;
  (** [new Date(created_at).toLocaleDateString()] *)
  toLocaleDateString : string -> string
}.

(** [agentExecutor.invoke({ input, chat_history })], up to its [output] or
    its rejection.  What the model decides and which tools it calls is the
    executor's business: it reaches the store and the console, which is why
    it runs in [IO]; the array it is handed is only read. *)
Class Orchestrator : Type := {
  agentExecutor_invoke : JsVal -> list ChatMessage -> IO string
}.

(** ** zod schemas *)

Module Zod.

Record Issue : Type := { path : string; code : string }.

Inductive Parsed (A : Type) : Type :=
| Success (data : A)
| Failure (issues : list Issue).
Arguments Success {A} data.
Arguments Failure {A} issues.

(** [z.string()] *)
Definition string_ (key : string) (v : JsVal) : list Issue :=
  match v with
  | JsString _ => []
  | _ => [{| path := key; code := "invalid_type" |}]
  end.

(** [z.string().email()] *)
Definition string_email `{Libs : Libraries} (key : string) (v : JsVal)
  : list Issue :=
  match v with
  | JsString s =>
      if is_email s then []
      else [{| path := key; code := "invalid_string" |}]
  | _ => [{| path := key; code := "invalid_type" |}]
  end.

(** [z.number()] *)
Definition number (key : string) (v : JsVal) : list Issue :=
  match v with
  | JsNumber _ => []
  | _ => [{| path := key; code := "invalid_type" |}]
  end.

Definition the_string (v : JsVal) : string :=
  match v with JsString s => s | _ => "" end.

Definition the_number (v : JsVal) : Q :=
  match v with JsNumber q => q | _ => 0%Q end.

End Zod.

(** ** The tools of [index.js] *)

(** The validated arguments of [submit_expense_claim]. *)
Module SubmitArgs.
Record t : Type := mk { email : string; description : string; amount : Q }.
End SubmitArgs.

(** What [new DynamicStructuredTool({ name, description, schema, func })]
    holds. *)
Record DynamicStructuredTool (Args : Type) : Type := {
  name : string;
  description : string;
  schema : list (string * JsVal) -> Zod.Parsed Args;
  func : Args -> IO string
}.
Arguments name {Args} _.
Arguments description {Args} _.
Arguments schema {Args} _ _.
Arguments func {Args} _ _.

(** What a tool call hands back to the orchestrator. *)
Inductive ToolResult : Type :=
| ToolInputParsingException (issues : list Zod.Issue)
| Observation (text : string).

(** Modelled from the spec: the dispatch of the imported tool class, which
    is not part of the repository.  The input is parsed with the tool's
    schema; when that fails the handler is not run and the issues are the
    result; otherwise the handler runs on the parsed arguments. *)
Definition tool_call {Args} (tool : DynamicStructuredTool Args)
    (input : list (string * JsVal)) : IO ToolResult :=
  match schema tool input with
  | Zod.Failure issues => ret (ToolInputParsingException issues)
  | Zod.Success args =>
      (text <- func tool args ;; ret (Observation text))%io
  end.

Definition newline : string := String "010" EmptyString.

Definition submitted_message (email : string) : string :=
  "Successfully submitted expense claim for " ++ email
  ++ ". The details have been recorded in the database.".

Definition submit_failed_message : string :=
  "Failed to submit expense claim due to an internal error.".

Definition no_claims_message (email : string) : string :=
  "No past claims found for " ++ email ++ ".".

Definition fetch_failed_message : string :=
  "Failed to retrieve claims due to an internal error.".

Section Tools.
Context `{Libs : Libraries}.

(** [z.object({ email: z.string().email(), description: z.string(),
    amount: z.number() })] *)
Definition expenseClaimTool_schema (input : list (string * JsVal))
  : Zod.Parsed SubmitArgs.t :=
  let email := prop input "email" in
  let description := prop input "description" in
  let amount := prop input "amount" in
  match (Zod.string_email "email" email
         ++ Zod.string_ "description" description
         ++ Zod.number "amount" amount)%list with
  | [] =>
      Zod.Success
        {| SubmitArgs.email := Zod.the_string email;
           SubmitArgs.description := Zod.the_string description;
           SubmitArgs.amount := Zod.the_number amount |}
  | issues => Zod.Failure issues
  end.

Definition expenseClaimTool_func (args : SubmitArgs.t) : IO string :=
  let email := SubmitArgs.email args in
  let description := SubmitArgs.description args in
  let amount := SubmitArgs.amount args in
  (try
     (reply <- claims_insert
                 {| NewClaim.email := email;
                    NewClaim.description := description;
                    NewClaim.amount := amount;
                    NewClaim.status := "Submitted" |} ;;
      match insert_error reply with
      | Some message => throw (Error ("Error saving to database: " ++ message))
      | None => ret tt
      end ;;
      console_log ("Claim saved to Supabase for " ++ email) ;;
      ret (submitted_message email))
   catch error =>
     (console_error "Error saving claim:" error ;;
      ret submit_failed_message))%io.

(** The row that [expenseClaimTool_func] asks the store to insert. *)
Definition submitted_row (args : SubmitArgs.t) : NewClaim.t :=
  {| NewClaim.email := SubmitArgs.email args;
     NewClaim.description := SubmitArgs.description args;
     NewClaim.amount := SubmitArgs.amount args;
     NewClaim.status := "Submitted" |}.

Definition expenseClaimTool : DynamicStructuredTool SubmitArgs.t := {|
  name := "submit_expense_claim";
  description :=
    "Use this to submit an expense claim. The user must provide their email, a description, and the amount.";
  schema := expenseClaimTool_schema;
  func := expenseClaimTool_func
|}.

(** [z.object({ email: z.string().email() })] *)
Definition getUserClaimsTool_schema (input : list (string * JsVal))
  : Zod.Parsed string :=
  let email := prop input "email" in
  match Zod.string_email "email" email with
  | [] => Zod.Success (Zod.the_string email)
  | issues => Zod.Failure issues
  end.

(** One line of the listing. *)
Definition format_claim (claim : Claim.t) : string :=
  "- Claim ID " ++ NilZero.string_of_int (Z.to_int (Claim.id claim))
  ++ ": " ++ Claim.description claim
  ++ " for $" ++ number_toString (Claim.amount claim)
  ++ " (Status: " ++ Claim.status claim
  ++ ", Submitted on: " ++ toLocaleDateString (Claim.created_at claim)
  ++ ")".

Definition getUserClaimsTool_func (email : string) : IO string :=
  (try
     (reply <- claims_select_eq_email email ;;
      match select_error reply with
      | Some message =>
          throw (Error ("Error fetching from database: " ++ message))
      | None => ret tt
      end ;;
      match select_data reply with
      | None => ret (no_claims_message email)
      | Some [] => ret (no_claims_message email)
      | Some data =>
          let formattedClaims :=
            String.concat newline (map format_claim data) in
          ret ("Here are the past claims for " ++ email ++ ":" ++ newline
               ++ formattedClaims)
      end)
   catch error =>
     (console_error "Error fetching claims:" error ;;
      ret fetch_failed_message))%io.

Definition getUserClaimsTool : DynamicStructuredTool string := {|
  name := "get_user_claims";
  description :=
    "Use this to get a list of all past expense claims submitted by a user. You must provide the user's email address.";
  schema := getUserClaimsTool_schema;
  func := getUserClaimsTool_func
|}.

End Tools.

(** ** The endpoint [POST /chat] *)

(** The process-wide state of the server: the module-level [chatHistory]
    array, and everything else the code reaches. *)
Record Server : Type := { chatHistory : list ChatMessage; env : Env }.

(** What [res.status(code).json(payload)] sends; [res.json(payload)] alone
    sends it with status 200. *)
Record Response : Type := {
  status : nat;
  json : list (string * JsVal)
}.

Definition human (message : JsVal) : ChatMessage :=
  {| role := "human"; content := message |}.

Definition ai (output : string) : ChatMessage :=
  {| role := "ai"; content := JsString output |}.

Section Endpoint.
Context `{Agent : Orchestrator}.

(** The handler of [app.post("/chat", ...)] on the properties of
    [req.body], from the point where line 167 has read them: the guard,
    the call of the agent executor inside the [try], and the two
    responses.  [chat_handler] below is the whole handler, for any
    [req.body], the missing one included. *)
Definition chat_post (body : list (string * JsVal)) (srv : Server)
  : Response * Server :=
  let message := prop body "message" in
  if negb (truthy message) then
    ({| status := 400; json := [("error", JsString "Message is required")] |},
     srv)
  else
    match (record_call (CallAgent message (chatHistory srv)) ;;
           agentExecutor_invoke message (chatHistory srv))%io (env srv) with
    | (Normal output, env') =>
        ({| status := 200; json := [("response", JsString output)] |},
         {| chatHistory :=
              (chatHistory srv ++ [human message; ai output])%list;
            env := env' |})
    | (Thrown error, env') =>
        ({| status := 500;
            json := [("error",
                      JsString "Failed to get a response from the agent.")] |},
         {| chatHistory := chatHistory srv;
            env := snd (console_error "Error processing chat:" error env') |})
    end.

(** The requests of a run, one after the other. *)
Fixpoint serve (bodies : list (list (string * JsVal))) (srv : Server)
  : list Response * Server :=
  match bodies with
  | [] => ([], srv)
  | body :: rest =>
      let (response, srv') := chat_post body srv in
      let (responses, srv'') := serve rest srv' in
      (response :: responses, srv'')
  end.

End Endpoint.

(** The server as [index.js] leaves it when it starts to listen. *)
Definition fresh_env (db : Supabase) : Env :=
  {| supabase := db; console := []; calls := [] |}.

Definition initial_server (db : Supabase) : Server :=
  {| chatHistory := []; env := fresh_env db |}.

(** The history is a sequence of exchanges: a human turn, then an ai turn. *)
Fixpoint exchanges (history : list ChatMessage) : Prop :=
  match history with
  | [] => True
  | h :: a :: rest => role h = "human" /\ role a = "ai" /\ exchanges rest
  | _ => False
  end.

(** The calls of a log that went to the agent executor. *)
Definition agent_calls (log : list Call) : list Call :=
  filter (fun c => match c with CallAgent _ _ => true | _ => false end) log.

(** The calls of a log that asked the store to insert a row. *)
Definition insert_calls (log : list Call) : list NewClaim.t :=
  flat_map (fun c => match c with CallInsert row => [row] | _ => [] end) log.

(** ** The chunker of the ingestion script *)

(** Where a window of text may be cut: the offset just after the last
    paragraph or sentence boundary in it, when it has one.  The policy is
    the splitter's own; the development holds for every policy. *)
Class Boundaries : Type := {
  natural_boundary : list ascii -> option nat
}.

Section Chunker.
Variables (size overlap : nat).
Context `{Policy : Boundaries}.

(** Modelled from the spec: "honoring natural boundaries where possible".
    How many characters of the window the next chunk takes: up to the
    natural boundary where that leaves more than the overlap (so that the
    next chunk starts further on), the whole window otherwise. *)
Definition take (window : list ascii) : nat :=
  match natural_boundary window with
  | Some n =>
      if ((overlap <? n) && (n <=? length window))%nat then n
      else length window
  | None => length window
  end.

(** Modelled from the spec: "greedily take up to [size] characters ...,
    carry the trailing [overlap] characters of one chunk into the start of
    the next".  A text that fits is the last chunk; otherwise a chunk is
    taken and the rest starts [overlap] characters before its end.  Every
    step moves on by at least one character when [overlap < size], so the
    length of the text is fuel enough. *)
Fixpoint chunks_from (fuel : nat) (text : list ascii) : list (list ascii) :=
  match fuel with
  | 0 => []
  | S fuel' =>
      if (length text <=? size)%nat then [text]
      else
        let n := take (firstn size text) in
        firstn n text :: chunks_from fuel' (skipn (n - overlap) text)
  end.

(** Modelled from the spec: [chunk(text, size, overlap)], the imported
    text splitter that [ingest.js] configures and whose code is not part of
    the repository.  The empty input yields the empty sequence; any other
    text is cut by [chunks_from]. *)
Definition chunk_chars (text : list ascii) : list (list ascii) :=
  match text with
  | [] => []
  | _ => chunks_from (length text) text
  end.

(** Modelled from the spec: [chunk] on strings. *)
Definition chunk (text : string) : list string :=
  map string_of_list_ascii (chunk_chars (list_ascii_of_string text)).

(** The chunks put back together: each chunk after the first without the
    [overlap] characters it carries over from its predecessor. *)
Definition strip_overlap (chunks : list (list ascii)) : list ascii :=
  match chunks with
  | [] => []
  | first :: rest => (first ++ concat (map (skipn overlap) rest))%list
  end.

Definition reassemble (chunks : list string) : string :=
  string_of_list_ascii (strip_overlap (map list_ascii_of_string chunks)).

(** The last [n] characters of a chunk. *)
Definition trailing (n : nat) (c : list ascii) : list ascii :=
  skipn (length c - n) c.

(** Each chunk starts with the trailing [overlap] characters of the one
    before it. *)
Fixpoint carries_overlap (chunks : list (list ascii)) : Prop :=
  match chunks with
  | c :: ((c' :: _) as rest) =>
      firstn overlap c' = trailing overlap c /\ carries_overlap rest
  | _ => True
  end.

End Chunker.

(** [new RecursiveCharacterTextSplitter({ chunkSize: 1000,
    chunkOverlap: 200 })] and its [splitDocuments([doc])]. *)
Definition chunkSize : nat := 1000.
Definition chunkOverlap : nat := 200.

Definition splitDocuments `{Policy : Boundaries} (pageContent : string) : list string :=
  chunk chunkSize chunkOverlap pageContent.

(** ** Start-up of the two scripts *)

(** What the constructors of the imported clients do with their
    configuration. *)
Class Clients : Type := {
  createClient : JsVal -> JsVal -> Completion unit;
  new_ChatGoogleGenerativeAI : JsVal -> Completion unit;
  new_GoogleGenerativeAIEmbeddings : JsVal -> Completion unit;
  (** the vector store, the retriever tool, the agent and its executor *)
  assemble_agent : Completion unit;
  (** [mammoth.extractRawText({ path })] *)
  extractRawText : string -> Completion string;
  (** [SupabaseVectorStore.fromDocuments(splitDocs, embeddings, ...)] *)
  fromDocuments : list string -> Completion unit
}.

(** [process.env.NAME]. *)
Fixpoint getenv (process_env : list (string * string)) (key : string)
  : JsVal :=
  match process_env with
  | [] => JsUndefined
  | (k, v) :: rest =>
      if String.eqb k key then JsString v else getenv rest key
  end.

(** How the evaluation of a script ends. *)
Inductive Outcome : Type :=
| Uncaught (e : JsError)          (* a top-level throw: the process dies *)
| Listening (port : Z)            (* [app.listen(port)] was reached *)
| Exited (code : nat)             (* [process.exit(code)] *)
| Ingested (chunks : list string) (* the chunks were handed to the store *).

Definition port : Z := 8000%Z.
Definition docxFilename : string := "expenses-policy.docx".

Section Startup.
Context `{Pkg : Clients} `{Policy : Boundaries}.

(** The top level of [index.js], in the order of the file. *)
Definition index_main (process_env : list (string * string)) : Outcome :=
  let privateKey := getenv process_env "SUPABASE_KEY" in
  if negb (truthy privateKey) then Uncaught (Error "Expected SUPABASE_KEY")
  else
    let url := getenv process_env "SUPABASE_URL" in
    if negb (truthy url) then Uncaught (Error "Expected SUPABASE_URL")
    else
      match createClient url privateKey with
      | Thrown e => Uncaught e
      | Normal _ =>
      match new_ChatGoogleGenerativeAI (getenv process_env "GOOGLE_API_KEY") with
      | Thrown e => Uncaught e
      | Normal _ =>
      match new_GoogleGenerativeAIEmbeddings
              (getenv process_env "GOOGLE_API_KEY") with
      | Thrown e => Uncaught e
      | Normal _ =>
      match assemble_agent with
      | Thrown e => Uncaught e
      | Normal _ => Listening port
      end end end end.

(** [run] of [ingest.js]: any failure inside it ends in
    [process.exit(1)]. *)
Definition run (url privateKey GOOGLE_API_KEY : JsVal) : Outcome :=
  match extractRawText docxFilename with
  | Thrown _ => Exited 1
  | Normal text =>
      let splitDocs := splitDocuments text in
      match createClient url privateKey with
      | Thrown _ => Exited 1
      | Normal _ =>
      match new_GoogleGenerativeAIEmbeddings GOOGLE_API_KEY with
      | Thrown _ => Exited 1
      | Normal _ =>
      match fromDocuments splitDocs with
      | Thrown _ => Exited 1
      | Normal _ => Ingested splitDocs
      end end end
  end.

(** The top level of [ingest.js]. *)
Definition ingest_main (process_env : list (string * string)) : Outcome :=
  let privateKey := getenv process_env "SUPABASE_KEY" in
  if negb (truthy privateKey) then Uncaught (Error "Expected SUPABASE_KEY")
  else
    let url := getenv process_env "SUPABASE_URL" in
    if negb (truthy url) then Uncaught (Error "Expected SUPABASE_URL")
    else
      let GOOGLE_API_KEY := getenv process_env "GOOGLE_API_KEY" in
      if negb (truthy GOOGLE_API_KEY) then
        Uncaught (Error "Expected GOOGLE_API_KEY")
      else run url privateKey GOOGLE_API_KEY.

End Startup.

(** ** A concrete setting, for running the code on examples *)

Module Sample.

(** A cut after the last full stop or line feed of the window. *)
Fixpoint last_break (pos : nat) (window : list ascii) (found : option nat)
  : option nat :=
  match window with
  | [] => found
  | c :: rest =>
      last_break (S pos) rest
        (if (Ascii.eqb c "." || Ascii.eqb c "010")%bool then Some (S pos)
         else found)
  end.

#[export] Instance sentences : Boundaries :=
  {| natural_boundary := fun window => last_break 0 window None |}.

(** Characters allowed on either side of the [@]. *)
Definition address_char (c : ascii) : bool :=
  let n := nat_of_ascii c in
  ((48 <=? n) && (n <=? 57) || (65 <=? n) && (n <=? 90)
   || (97 <=? n) && (n <=? 122)
   || Ascii.eqb c "." || Ascii.eqb c "_" || Ascii.eqb c "-"
   || Ascii.eqb c "+")%bool%nat.

Fixpoint all_address_chars (s : string) : bool :=
  match s with
  | EmptyString => true
  | String c rest => (address_char c && all_address_chars rest)%bool
  end.

Fixpoint has_dot_inside (s : string) : bool :=
  match s with
  | String _ (String "." (String _ _)) => true
  | String _ rest => has_dot_inside rest
  | EmptyString => false
  end.

(** [local@domain]: a non-empty local part, and a domain with a dot
    inside. *)
Fixpoint address (local_seen : bool) (s : string) : bool :=
  match s with
  | EmptyString => false
  | String "@" domain =>
      (local_seen && all_address_chars domain && has_dot_inside domain)%bool
  | String c rest => (address_char c && address true rest)%bool
  end.

Definition decimal (q : Q) : string :=
  NilZero.string_of_int (Z.to_int (Qnum q)) ++
  match Qden q with
  | xH => ""
  | d => "/" ++ NilZero.string_of_uint (Pos.to_uint d)
  end.

(** An agent executor that fails on the input ["crash"], lists the claims
    of the address it is given when the input is an address, and greets
    otherwise. *)
Definition scripted_agent (is_email : string -> bool)
    (lookup : string -> IO string)
    (input : JsVal) (chat_history : list ChatMessage) : IO string :=
  match input with
  | JsString "crash" => throw (Error "model unavailable")
  | JsString s => if is_email s then lookup s else ret "Hello!"
  | _ => ret "Hello!"
  end.

#[export] Instance libraries : Libraries :=
  {| is_email := address false;
     number_toString := decimal;
     toLocaleDateString := fun created_at => created_at |}.

#[export] Instance agent : Orchestrator :=
  {| agentExecutor_invoke :=
       scripted_agent is_email getUserClaimsTool_func |}.

(** A constructor that refuses a missing or empty key. *)
Definition requires (what : string) (v : JsVal) : Completion unit :=
  if truthy v then Normal tt else Thrown (Error (what ++ " is required")).

(** Clients whose constructors refuse a missing or empty key or URL, as
    those of the imported packages do, and accept any other. *)
#[export] Instance clients : Clients :=
  {| createClient :=
       fun url key =>
         match requires "supabaseUrl" url with
         | Normal _ => requires "supabaseKey" key
         | Thrown e => Thrown e
         end;
     new_ChatGoogleGenerativeAI := requires "apiKey";
     new_GoogleGenerativeAIEmbeddings := requires "apiKey";
     assemble_agent := Normal tt;
     extractRawText := fun _ => Normal "Meals are capped at 50 per day.";
     fromDocuments := fun _ => Normal tt |}.

Definition reachable : Supabase :=
  {| claims := []; outage := None; now := "2025-01-01T00:00:00Z" |}.

Definition unreachable : Supabase :=
  {| claims := []; outage := Some (ReplyError "connection refused");
     now := "2025-01-01T00:00:00Z" |}.

Definition bob_taxi : list (string * JsVal) :=
  [("email", JsString "bob@co.com"); ("description", JsString "taxi");
   ("amount", JsNumber (85 # 2))].

Definition bob_refund : list (string * JsVal) :=
  [("email", JsString "bob@co.com"); ("description", JsString "taxi");
   ("amount", JsNumber (-5 # 1))].

Definition bob_row : Claim.t :=
  {| Claim.id := 1; Claim.email := "bob@co.com";
     Claim.description := "taxi"; Claim.amount := 85 # 2;
     Claim.status := "Submitted";
     Claim.created_at := "2025-01-01T00:00:00Z" |}.

Definition with_bob : Supabase :=
  {| claims := [bob_row]; outage := None; now := "2025-01-02T00:00:00Z" |}.

Definition bob_args : SubmitArgs.t :=
  {| SubmitArgs.email := "bob@co.com"; SubmitArgs.description := "taxi";
     SubmitArgs.amount := 85 # 2 |}.

(** An HTTP client that resolves with the payload of a 2xx response and
    rejects any other. *)
Definition axios (response : Response) : Completion JsVal :=
  if ((200 <=? status response) && (status response <? 300))%nat then
    Normal (JsObject (json response))
  else Thrown (Error "Request failed").

End Sample.

(** ** What the claims speak about *)

Section Vocabulary.
Context `{Libs : Libraries}.

(** A tool call that the schema turned away: the issues are the result, and
    the world is as it was (nothing sent, logged or stored). *)
Definition turned_away {Args} (tool : DynamicStructuredTool Args)
    (input : list (string * JsVal)) (env : Env) : Prop :=
  exists issues,
    issues <> []
    /\ tool_call tool input env
       = (Normal (ToolInputParsingException issues), env).

(** The field is a string that passes the e-mail check. *)
Definition well_formed_email (v : JsVal) : bool :=
  match v with
  | JsString s => is_email s
  | _ => false
  end.

Definition is_number (v : JsVal) : bool :=
  match v with
  | JsNumber _ => true
  | _ => false
  end.

(** The field is a number above zero. *)
Definition positive (v : JsVal) : Prop :=
  match v with
  | JsNumber q => (0 < q)%Q
  | _ => False
  end.

(** The rows of the table that [select ... eq('email', email)] returns. *)
Definition claims_of (email : string) (db : Supabase) : list Claim.t :=
  filter (fun c => String.eqb (Claim.email c) email) (claims db).

End Vocabulary.

(** Turn [i] of the history is a human turn when [i] is even and an ai turn
    when it is odd. *)
Definition alternates (history : list ChatMessage) : Prop :=
  forall i m,
    nth_error history i = Some m ->
    role m = if Nat.even i then "human" else "ai".

(** The agent executor as [chat_post] starts it: on the message and on the
    history as it stands when the request arrives. *)
Definition agent_run `{Agent : Orchestrator} (message : JsVal) (srv : Server)
  : Completion string * Env :=
  (record_call (CallAgent message (chatHistory srv)) ;;
   agentExecutor_invoke message (chatHistory srv))%io (env srv).

Definition message_required : Response :=
  {| status := 400; json := [("error", JsString "Message is required")] |}.

Definition agent_failed : Response :=
  {| status := 500;
     json := [("error",
               JsString "Failed to get a response from the agent.")] |}.

Definition replied (output : string) : Response :=
  {| status := 200; json := [("response", JsString output)] |}.

(** An environment with the two Supabase secrets and no
    [GOOGLE_API_KEY]. *)
Definition supabase_only : list (string * string) :=
  [("SUPABASE_KEY", "service-role-key");
   ("SUPABASE_URL", "https://project.supabase.co")].

(** ** Requests in flight *)

(** The handler has a single [await], on the agent executor.  A request is
    therefore handled in two uninterrupted stretches: from its arrival to
    the call of the executor, and from the executor's answer to the
    response.  Stretches of different requests interleave on the one shared
    [chatHistory]; what the executor answers is not constrained. *)
Record Node : Type := {
  history : list ChatMessage;   (* the shared [chatHistory] *)
  waiting : list JsVal;         (* the messages suspended at the [await] *)
  sent : list Response          (* the responses sent so far *)
}.

Inductive stretch : Node -> Node -> Prop :=
| arrive_rejected (n : Node) (body : list (string * JsVal)) :
    truthy (prop body "message") = false ->
    stretch n
      {| history := history n; waiting := waiting n;
         sent := (sent n ++ [message_required])%list |}
| arrive_accepted (n : Node) (body : list (string * JsVal)) :
    truthy (prop body "message") = true ->
    stretch n
      {| history := history n;
         waiting := (waiting n ++ [prop body "message"])%list;
         sent := sent n |}
| agent_returned (n : Node) (before after : list JsVal) (message : JsVal)
    (output : string) :
    waiting n = (before ++ message :: after)%list ->
    stretch n
      {| history := (history n ++ [human message; ai output])%list;
         waiting := (before ++ after)%list;
         sent := (sent n ++ [replied output])%list |}
| agent_threw (n : Node) (before after : list JsVal) (message : JsVal) :
    waiting n = (before ++ message :: after)%list ->
    stretch n
      {| history := history n; waiting := (before ++ after)%list;
         sent := (sent n ++ [agent_failed])%list |}.

Definition idle : Node := {| history := []; waiting := []; sent := [] |}.

(** The nodes the server can be in. *)
Inductive reachable : Node -> Prop :=
| reachable_idle : reachable idle
| reachable_stretch (n n' : Node) :
    reachable n -> stretch n n' -> reachable n'.

(** ** The chat client *)

(** [value.key] on a value that need not be an object: reading a property
    of [undefined] or [null] throws, reading one of another primitive gives
    [undefined]. *)
Definition member (v : JsVal) (key : string) : Completion JsVal :=
  match v with
  | JsObject fields => Normal (prop fields key)
  | JsUndefined => Thrown (Error "Cannot read properties of undefined")
  | JsNull => Thrown (Error "Cannot read properties of null")
  | _ => Normal JsUndefined
  end.

Module App.

(** The state of the [App] component, and what it has sent out: the
    toasts, the console and the requests posted. *)
Record State : Type := {
  message : string;                (* the text in the input *)
  chatHistory : list ChatMessage;  (* the turns on the screen *)
  loading : bool;
  sessionId : string;
  toasts : list string;
  console : list string;
  posted : list (string * list (string * JsVal))
}.

(** The component as it mounts. *)
Definition mount (uuid : string) : State :=
  {| message := ""; chatHistory := []; loading := false; sessionId := uuid;
     toasts := []; console := []; posted := [] |}.

Definition setMessage (value : string) (app : State) : State :=
  {| message := value; chatHistory := chatHistory app;
     loading := loading app; sessionId := sessionId app;
     toasts := toasts app; console := console app; posted := posted app |}.

(** [onChange={(e) => setMessage(e.target.value)}] *)
Definition onChange (value : string) (app : State) : State :=
  setMessage value app.

Definition setChatHistory (update : list ChatMessage -> list ChatMessage)
    (app : State) : State :=
  {| message := message app; chatHistory := update (chatHistory app);
     loading := loading app; sessionId := sessionId app;
     toasts := toasts app; console := console app; posted := posted app |}.

Definition setLoading (value : bool) (app : State) : State :=
  {| message := message app; chatHistory := chatHistory app;
     loading := value; sessionId := sessionId app;
     toasts := toasts app; console := console app; posted := posted app |}.

Definition toast_error (text : string) (app : State) : State :=
  {| message := message app; chatHistory := chatHistory app;
     loading := loading app; sessionId := sessionId app;
     toasts := (toasts app ++ [text])%list; console := console app;
     posted := posted app |}.

Definition console_error (label : string) (e : JsError) (app : State)
  : State :=
  {| message := message app; chatHistory := chatHistory app;
     loading := loading app; sessionId := sessionId app;
     toasts := toasts app;
     console :=
       (console app ++ [(label ++ " " ++ err_message e)%string])%list;
     posted := posted app |}.

Definition record_post (url : string) (body : list (string * JsVal))
    (app : State) : State :=
  {| message := message app; chatHistory := chatHistory app;
     loading := loading app; sessionId := sessionId app;
     toasts := toasts app; console := console app;
     posted := (posted app ++ [(url, body)])%list |}.

Section Component.
(** [import.meta.env.VITE_API_BASE_URL], and what [axios.post(url, body)]
    comes back with: the [data] of the response, or a rejection. *)
Variable VITE_API_BASE_URL : option string.
Variable axios_post : string -> list (string * JsVal) -> Completion JsVal.

(** [import.meta.env.VITE_API_BASE_URL || "http://localhost:8000"] *)
Definition apiUrl : string :=
  match VITE_API_BASE_URL with
  | Some base =>
      if String.eqb base "" then "http://localhost:8000" else base
  | None => "http://localhost:8000"
  end.

(** [{ message: message, sessionId: sessionId }] *)
Definition request_body (app : State) : list (string * JsVal) :=
  [("message", JsString (message app));
   ("sessionId", JsString (sessionId app))].

(** [handleSubmit] up to its [await]: the user's turn is on the screen,
    the input is cleared and disabled, the request is on its way. *)
Definition handleSubmit_pending (app : State) : State :=
  let currentUserMessage :=
    {| role := "user"; content := JsString (message app) |} in
  record_post (apiUrl ++ "/chat") (request_body app)
    (setMessage ""
       (setLoading true
          (setChatHistory (fun prev => (prev ++ [currentUserMessage])%list)
             app))).

(** [handleSubmit], from the submit event to the end of its [finally]. *)
Definition handleSubmit (app : State) : State :=
  if String.eqb (message app) "" then
    toast_error "Please enter a message." app
  else
    let pending := handleSubmit_pending app in
    let failed (error : JsError) :=
      toast_error "Failed to get response. Please check the console."
        (console_error "Error sending message:" error pending) in
    let settled :=
      match axios_post (apiUrl ++ "/chat") (request_body app) with
      | Normal data =>
          match member data "response" with
          | Normal content =>
              let aiResponse := {| role := "ai"; content := content |} in
              setChatHistory (fun prev => (prev ++ [aiResponse])%list) pending
          | Thrown error => failed error
          end
      | Thrown error => failed error
      end in
    setLoading false settled.

End Component.

End App.

(** ** Client and server together *)

(** One submit of the client against the server.  [deliver] is what the
    HTTP client makes of the server's response: the [data] it resolves
    with, or the rejection. *)
Definition round_trip `{Agent : Orchestrator}
    (deliver : Response -> Completion JsVal) (base : option string)
    (app : App.State) (srv : Server) : App.State * Server :=
  let answer := chat_post (App.request_body app) srv in
  (App.handleSubmit base (fun _ _ => deliver (fst answer)) app,
   if String.eqb (App.message app) "" then srv else snd answer).

(** ** More vocabulary *)

(** The text of a non-empty listing. *)
Definition listing `{Libs : Libraries} (email : string)
    (data : list Claim.t) : string :=
  "Here are the past claims for " ++ email ++ ":" ++ newline
  ++ String.concat newline (map format_claim data).

(** What the look-up handler answers on a reachable store. *)
Definition lookup_text `{Libs : Libraries} (email : string) (db : Supabase)
  : string :=
  match claims_of email db with
  | [] => no_claims_message email
  | data => listing email data
  end.

(** The exchanges that a run of requests and its responses account for:
    for each request answered with status 200, the message and the text
    that was sent back. *)
Fixpoint answered (bodies : list (list (string * JsVal)))
    (responses : list Response) : list ChatMessage :=
  match bodies, responses with
  | body :: bodies', response :: responses' =>
      ((if (status response =? 200)%nat then
          [human (prop body "message");
           {| role := "ai"; content := prop (json response) "response" |}]
        else [])
       ++ answered bodies' responses')%list
  | _, _ => []
  end.

(** How many of the responses have status 200. *)
Definition count_ok (responses : list Response) : nat :=
  length (filter (fun r => (status r =? 200)%nat) responses).

(** A session at the client: the user types a text and submits it, and
    each submit is settled, with what its request came back with, before
    the next one (the input is disabled in between). *)
Fixpoint submits (base : option string)
    (session : list (string * Completion JsVal)) (app : App.State)
  : App.State :=
  match session with
  | [] => app
  | (text, outcome) :: rest =>
      submits base rest
        (App.handleSubmit base (fun _ _ => outcome) (App.onChange text app))
  end.

(** Histories made of user turns, each with or without an ai turn right
    after it. *)
Inductive turns : list ChatMessage -> Prop :=
| turns_none : turns []
| turns_unanswered (h : list ChatMessage) (content : JsVal) :
    turns h -> turns (h ++ [{| role := "user"; content := content |}])
| turns_answered (h : list ChatMessage) (content reply : JsVal) :
    turns h ->
    turns (h ++ [{| role := "user"; content := content |};
                 {| role := "ai"; content := reply |}]).

(** ** The handler on any [req.body] *)

(** [undefined] and [null], which cannot be destructured. *)
Definition nullish (v : JsVal) : bool :=
  match v with
  | JsUndefined => true
  | JsNull => true
  | _ => false
  end.

(** The properties that a destructuring reads: those of an object; a
    number, a string or a boolean has none of the names asked for. *)
Definition own_fields (v : JsVal) : list (string * JsVal) :=
  match v with
  | JsObject fields => fields
  | _ => []
  end.

(** The TypeError of [const { message } = req.body] on a missing body. *)
Definition cannot_destructure : JsError :=
  Error "Cannot destructure property 'message' of 'req.body' as it is undefined.".

(** The whole handler of [app.post("/chat", ...)].  Line 167 destructures
    [req.body] before the [try]: when no body was parsed and [req.body]
    is [undefined], the handler throws there, its promise rejects and it
    sends no response of its own (what the client then receives is the
    framework's answer to the rejection).  Otherwise it goes on as
    [chat_post] on the properties of the body. *)
Definition chat_handler `{Agent : Orchestrator} (req_body : JsVal)
    (srv : Server) : Completion Response * Server :=
  if nullish req_body then (Thrown cannot_destructure, srv)
  else
    let (response, srv') := chat_post (own_fields req_body) srv in
    (Normal response, srv').

(** * Properties *)

(** ** Strings and logs *)

Lemma includes_middle (before needle after : string) :
  includes (before ++ needle ++ after) needle.
Proof. exists before, after. reflexivity. Qed.

Lemma submitted_message_includes_email (email : string) :
  includes (submitted_message email) email.
Proof. apply includes_middle. Qed.

Lemma failure_is_not_success (email : string) :
  submit_failed_message <> submitted_message email.
Proof. unfold submit_failed_message, submitted_message. discriminate. Qed.

Lemma insert_calls_app (l1 l2 : list Call) :
  insert_calls (l1 ++ l2) = (insert_calls l1 ++ insert_calls l2)%list.
Proof. apply flat_map_app. Qed.

Lemma agent_calls_app (l1 l2 : list Call) :
  agent_calls (l1 ++ l2) = (agent_calls l1 ++ agent_calls l2)%list.
Proof. apply filter_app. Qed.

(** ** The submit-claim tool *)

Section ToolProperties.
Context `{Libs : Libraries}.

(** The handler on a reachable store, step by step. *)
Lemma expenseClaimTool_func_reachable (args : SubmitArgs.t) (env : Env) :
  outage (supabase env) = None ->
  expenseClaimTool_func args env =
  (Normal (submitted_message (SubmitArgs.email args)),
   {| supabase :=
        {| claims :=
             (claims (supabase env)
              ++ [stored (supabase env) (submitted_row args)])%list;
           outage := None;
           now := now (supabase env) |};
      console :=
        (console env
         ++ [("Claim saved to Supabase for " ++ SubmitArgs.email args)%string])%list;
      calls := (calls env ++ [CallInsert (submitted_row args)])%list |}).
Proof.
  intros Hup.
  unfold expenseClaimTool_func, try_catch, bind, claims_insert, bind,
    record_call, console_log, ret.
  cbn. rewrite Hup. reflexivity.
Qed.

(** The handler when the store answers with an error or the request
    rejects: the failure text, and the table as it was. *)
Lemma expenseClaimTool_func_outage (args : SubmitArgs.t) (env : Env)
    (fault : DbFault) :
  outage (supabase env) = Some fault ->
  exists line,
    expenseClaimTool_func args env =
    (Normal submit_failed_message,
     {| supabase := supabase env;
        console := (console env ++ [line])%list;
        calls := (calls env ++ [CallInsert (submitted_row args)])%list |}).
Proof.
  intros Hdown.
  unfold expenseClaimTool_func, try_catch, bind, claims_insert, bind,
    record_call, console_error, console_log, ret, throw.
  cbn. rewrite Hdown. destruct fault as [m | e]; cbn; eexists; reflexivity.
Qed.

(** C1.  A call of the submit-claim handler on validated arguments sends the
    store exactly one insert request, for a row with the caller's e-mail,
    description and amount and the status "Submitted".  When the store
    accepts it the table grows by exactly that row and the handler returns
    the confirmation, which contains the e-mail; when the insert fails the
    table is unchanged and the handler returns the failure text, which is
    not a confirmation for any e-mail. *)
Theorem submit_claim_inserts_one_submitted_row
    (args : SubmitArgs.t) (env : Env) :
  let email := SubmitArgs.email args in
  let result := fst (expenseClaimTool_func args env) in
  let env' := snd (expenseClaimTool_func args env) in
  insert_calls (calls env')
  = (insert_calls (calls env) ++ [submitted_row args])%list
  /\ NewClaim.status (submitted_row args) = "Submitted"
  /\ match outage (supabase env) with
     | None =>
         result = Normal (submitted_message email)
         /\ includes (submitted_message email) email
         /\ claims (supabase env')
            = (claims (supabase env)
               ++ [stored (supabase env) (submitted_row args)])%list
         /\ Claim.status (stored (supabase env) (submitted_row args))
            = "Submitted"
         /\ Claim.email (stored (supabase env) (submitted_row args)) = email
     | Some _ =>
         result = Normal submit_failed_message
         /\ (forall e, submit_failed_message <> submitted_message e)
         /\ claims (supabase env') = claims (supabase env)
     end.
Proof.
  cbv zeta.
  destruct (outage (supabase env)) as [fault |] eqn:Hstore.
  - destruct (expenseClaimTool_func_outage args env fault Hstore)
      as [line Hrun].
    rewrite Hrun; cbn [fst snd calls supabase].
    rewrite insert_calls_app.
    repeat split; auto using failure_is_not_success.
  - rewrite (expenseClaimTool_func_reachable args env Hstore).
    cbn [fst snd calls supabase claims].
    rewrite insert_calls_app.
    repeat split; auto using submitted_message_includes_email.
Qed.

End ToolProperties.

(** ** Validation before dispatch *)

Section Validation.
Context `{Libs : Libraries}.

Lemma email_issue_when_malformed (key : string) (v : JsVal) :
  well_formed_email v = false -> Zod.string_email key v <> [].
Proof.
  destruct v; cbn; intros Hbad; try discriminate.
  rewrite Hbad. discriminate.
Qed.

Lemma number_issue_when_not_a_number (key : string) (v : JsVal) :
  is_number v = false -> Zod.number key v <> [].
Proof. destruct v; cbn; intros Hbad; discriminate. Qed.

Lemma schema_failure_turns_away {Args} (tool : DynamicStructuredTool Args)
    (input : list (string * JsVal)) (env : Env) (issues : list Zod.Issue) :
  issues <> [] ->
  schema tool input = Zod.Failure issues ->
  turned_away tool input env.
Proof.
  intros Hsome Hparse. exists issues. split; [exact Hsome |].
  unfold tool_call. rewrite Hparse. reflexivity.
Qed.

Lemma expenseClaimTool_schema_failure (input : list (string * JsVal)) :
  let issues :=
    (Zod.string_email "email" (prop input "email")
     ++ Zod.string_ "description" (prop input "description")
     ++ Zod.number "amount" (prop input "amount"))%list in
  issues <> [] ->
  expenseClaimTool_schema input = Zod.Failure issues.
Proof.
  cbv zeta. unfold expenseClaimTool_schema.
  destruct (_ ++ _ ++ _)%list; [congruence | reflexivity].
Qed.

(** C2, as the code has it.  The schema of the submit-claim tool checks that
    the e-mail is a well-formed address and that the amount is a number
    (its sign is not looked at).  For every invocation whose e-mail is
    malformed or whose amount is not a number, the handler does not run:
    the result is the list of validation issues, and nothing is inserted,
    sent or logged. *)
Theorem submit_claim_validates_before_executing
    (input : list (string * JsVal)) (env : Env) :
  well_formed_email (prop input "email") = false
  \/ is_number (prop input "amount") = false ->
  turned_away expenseClaimTool input env.
Proof.
  intros Hbad.
  assert (Hsome :
    (Zod.string_email "email" (prop input "email")
     ++ Zod.string_ "description" (prop input "description")
     ++ Zod.number "amount" (prop input "amount"))%list <> []).
  { intros Hnil.
    apply app_eq_nil in Hnil. destruct Hnil as [Hemail Hrest].
    apply app_eq_nil in Hrest. destruct Hrest as [_ Hamount].
    destruct Hbad as [Hbad | Hbad].
    - exact (email_issue_when_malformed _ _ Hbad Hemail).
    - exact (number_issue_when_not_a_number _ _ Hbad Hamount). }
  eapply schema_failure_turns_away; [exact Hsome |].
  exact (expenseClaimTool_schema_failure input Hsome).
Qed.

(** The same for the look-up tool, whose schema has the e-mail only. *)
Lemma get_user_claims_validates_before_executing
    (input : list (string * JsVal)) (env : Env) :
  well_formed_email (prop input "email") = false ->
  turned_away getUserClaimsTool input env.
Proof.
  intros Hbad.
  pose proof (email_issue_when_malformed "email" _ Hbad) as Hsome.
  eapply schema_failure_turns_away; [exact Hsome |].
  cbn. unfold getUserClaimsTool_schema.
  destruct (Zod.string_email "email" (prop input "email"));
    [congruence | reflexivity].
Qed.

(** Arguments that pass the schema reach the handler as they are, whatever
    the sign of the amount. *)
Lemma submit_claim_dispatches (email description : string) (amount : Q)
    (env : Env) :
  is_email email = true ->
  tool_call expenseClaimTool
    [("email", JsString email); ("description", JsString description);
     ("amount", JsNumber amount)] env
  = (let (result, env') :=
       expenseClaimTool_func
         {| SubmitArgs.email := email;
            SubmitArgs.description := description;
            SubmitArgs.amount := amount |} env in
     match result with
     | Normal text => (Normal (Observation text), env')
     | Thrown e => (Thrown e, env')
     end).
Proof.
  intros Hok. unfold tool_call. cbn [schema expenseClaimTool func].
  unfold expenseClaimTool_schema. cbn. rewrite Hok. cbn.
  unfold bind, ret.
  destruct (expenseClaimTool_func _ env) as [[text | e] env']; reflexivity.
Qed.

(** C5.  The look-up tool, called with a well-formed e-mail for which a
    reachable store has no row, returns the text that says no past claims
    were found for that e-mail: a normal result, not an error and not an
    empty listing.  The only trace it leaves is the select request. *)
Theorem get_user_claims_none_found (email : string) (env : Env) :
  is_email email = true ->
  outage (supabase env) = None ->
  claims_of email (supabase env) = [] ->
  tool_call getUserClaimsTool [("email", JsString email)] env
  = (Normal (Observation (no_claims_message email)),
     {| supabase := supabase env; console := console env;
        calls := (calls env ++ [CallSelect email])%list |})
  /\ includes (no_claims_message email) email
  /\ no_claims_message email <> ""
  /\ no_claims_message email <> fetch_failed_message.
Proof.
  intros Hok Hup Hnone.
  repeat split.
  - unfold tool_call. cbn [schema getUserClaimsTool func].
    unfold getUserClaimsTool_schema. cbn. rewrite Hok.
    unfold getUserClaimsTool_func, try_catch, bind, claims_select_eq_email,
      bind, record_call, ret.
    cbn. rewrite Hup. cbn.
    unfold claims_of in Hnone. rewrite Hnone. reflexivity.
  - apply includes_middle.
  - discriminate.
  - discriminate.
Qed.

End Validation.

(** An invocation with a malformed e-mail, turned away. *)
Lemma submit_claim_validates_before_executing_witness :
  let input :=
    [("email", JsString "bob-at-co.com"); ("description", JsString "taxi");
     ("amount", JsNumber (85 # 2))] in
  (well_formed_email (Libs := Sample.libraries) (prop input "email") = false
   \/ is_number (prop input "amount") = false)
  /\ turned_away (expenseClaimTool (Libs := Sample.libraries)) input
       (fresh_env Sample.reachable).
Proof.
  cbv zeta. split.
  - left. reflexivity.
  - apply (submit_claim_validates_before_executing
             (Libs := Sample.libraries)).
    left. reflexivity.
Defined.

(** C2 as stated does not hold: an amount of -5 with a well-formed e-mail
    is not turned away.  The handler runs and a row with that amount is
    inserted. *)
Lemma non_positive_amount_is_inserted :
  well_formed_email (Libs := Sample.libraries)
    (prop Sample.bob_refund "email") = true
  /\ ~ positive (prop Sample.bob_refund "amount")
  /\ ~ turned_away (expenseClaimTool (Libs := Sample.libraries))
         Sample.bob_refund (fresh_env Sample.reachable)
  /\ map Claim.amount
       (claims (supabase (snd
          (tool_call (expenseClaimTool (Libs := Sample.libraries))
             Sample.bob_refund (fresh_env Sample.reachable)))))
     = [(-5 # 1)%Q].
Proof.
  split; [reflexivity |].
  split; [cbn; intros Hpos; discriminate Hpos |].
  split; [| reflexivity].
  intros [issues [_ Hrun]]. vm_compute in Hrun. discriminate Hrun.
Qed.

(** A look-up for an address without claims. *)
Lemma get_user_claims_none_found_witness :
  is_email (Libraries := Sample.libraries) "bob@co.com" = true
  /\ outage (supabase (fresh_env Sample.reachable)) = None
  /\ claims_of "bob@co.com" (supabase (fresh_env Sample.reachable)) = []
  /\ fst (tool_call (getUserClaimsTool (Libs := Sample.libraries))
            [("email", JsString "bob@co.com")] (fresh_env Sample.reachable))
     = Normal (Observation "No past claims found for bob@co.com.").
Proof.
  split; [reflexivity |]. split; [reflexivity |]. split; [reflexivity |].
  rewrite (proj1 (get_user_claims_none_found (Libs := Sample.libraries)
                    "bob@co.com" (fresh_env Sample.reachable)
                    eq_refl eq_refl eq_refl)).
  reflexivity.
Defined.

(** ** The endpoint *)

Section EndpointProperties.
Context `{Agent : Orchestrator}.

Lemma chat_post_falsy (body : list (string * JsVal)) (srv : Server) :
  truthy (prop body "message") = false ->
  chat_post body srv = (message_required, srv).
Proof. intros Hfalsy. unfold chat_post. rewrite Hfalsy. reflexivity. Qed.

Lemma chat_post_truthy (body : list (string * JsVal)) (srv : Server) :
  truthy (prop body "message") = true ->
  chat_post body srv =
  match agent_run (prop body "message") srv with
  | (Normal output, env') =>
      (replied output,
       {| chatHistory :=
            (chatHistory srv ++ [human (prop body "message"); ai output])%list;
          env := env' |})
  | (Thrown error, env') =>
      (agent_failed,
       {| chatHistory := chatHistory srv;
          env := snd (console_error "Error processing chat:" error env') |})
  end.
Proof. intros Htruthy. unfold chat_post. rewrite Htruthy. reflexivity. Qed.

Lemma truthy_nonempty_string (c : ascii) (s : string) :
  truthy (JsString (String c s)) = true.
Proof. reflexivity. Qed.

(** The responses of the handler on the properties of an object body. *)
Lemma chat_post_responses (body : list (string * JsVal)) (srv : Server) :
  let message := prop body "message" in
  let response := fst (chat_post body srv) in
  response
  = (if truthy message then
       match fst (agent_run message srv) with
       | Normal output => replied output
       | Thrown _ => agent_failed
       end
     else message_required)
  /\ In (status response) [200; 400; 500]
  /\ truthy JsUndefined = false
  /\ truthy (JsString "") = false
  /\ (forall c s, truthy (JsString (String c s)) = true).
Proof.
  cbv zeta.
  assert (Hresponse :
    fst (chat_post body srv)
    = (if truthy (prop body "message") then
         match fst (agent_run (prop body "message") srv) with
         | Normal output => replied output
         | Thrown _ => agent_failed
         end
       else message_required)).
  { destruct (truthy (prop body "message")) eqn:Htest.
    - rewrite (chat_post_truthy body srv Htest).
      destruct (agent_run (prop body "message") srv) as [[output | e] env'];
        reflexivity.
    - rewrite (chat_post_falsy body srv Htest). reflexivity. }
  split; [exact Hresponse |].
  split; [| auto using truthy_nonempty_string].
  rewrite Hresponse.
  destruct (truthy (prop body "message"));
    [destruct (fst (agent_run (prop body "message") srv)) |];
    cbn; auto.
Qed.

(** An object body without a message: status 400, and the server as it
    was. *)
Lemma chat_post_without_message
    (body : list (string * JsVal)) (srv : Server) :
  prop body "message" = JsUndefined ->
  fst (chat_post body srv) = message_required
  /\ status message_required = 400
  /\ json message_required = [("error", JsString "Message is required")]
  /\ snd (chat_post body srv) = srv
  /\ agent_calls (calls (env (snd (chat_post body srv))))
     = agent_calls (calls (env srv))
  /\ chatHistory (snd (chat_post body srv)) = chatHistory srv.
Proof.
  intros Hmissing.
  assert (Hrun : chat_post body srv = (message_required, srv)).
  { apply chat_post_falsy. rewrite Hmissing. reflexivity. }
  rewrite Hrun. cbn. auto 6.
Qed.

(** C6, as the code has it.  For a message that passes the guard, the agent
    executor is started on the message and on the history as it stood
    before the request: nothing is appended first.  When it returns, the
    human turn and one ai turn are appended, in that order; when it fails,
    the history stays as it was. *)
Theorem history_is_extended_after_the_agent_returns
    (body : list (string * JsVal)) (srv : Server) :
  truthy (prop body "message") = true ->
  let message := prop body "message" in
  let started :=
    snd (record_call (CallAgent message (chatHistory srv)) (env srv)) in
  calls started
  = (calls (env srv) ++ [CallAgent message (chatHistory srv)])%list
  /\ agent_run message srv
     = agentExecutor_invoke message (chatHistory srv) started
  /\ chatHistory (snd (chat_post body srv))
     = match fst (agentExecutor_invoke message (chatHistory srv) started) with
       | Normal output =>
           (chatHistory srv ++ [human message; ai output])%list
       | Thrown _ => chatHistory srv
       end.
Proof.
  intros Htruthy. cbv zeta.
  split; [reflexivity |]. split; [reflexivity |].
  rewrite (chat_post_truthy body srv Htruthy).
  change (agent_run (prop body "message") srv)
    with (agentExecutor_invoke (prop body "message") (chatHistory srv)
            (snd (record_call
                    (CallAgent (prop body "message") (chatHistory srv))
                    (env srv)))).
  destruct (agentExecutor_invoke _ _ _) as [[output | e] env']; reflexivity.
Qed.

End EndpointProperties.

(** ** The shape of the chat history *)

Lemma exchanges_app : forall h1 h2 : list ChatMessage,
  exchanges h1 -> exchanges h2 -> exchanges (h1 ++ h2).
Proof.
  fix IH 1. intros [| h [| a rest]] h2; cbn.
  - intros _ Hh2. exact Hh2.
  - intros [].
  - intros [Hh [Ha Hrest]] Hh2. repeat split; auto.
Qed.

Lemma exchanges_even_length : forall history : list ChatMessage,
  exchanges history -> Nat.even (length history) = true.
Proof.
  fix IH 1. intros [| h [| a rest]]; cbn.
  - reflexivity.
  - intros [].
  - intros [_ [_ Hrest]]. apply IH. exact Hrest.
Qed.

Lemma exchanges_alternates : forall history : list ChatMessage,
  exchanges history -> alternates history.
Proof.
  fix IH 1. intros [| h [| a rest]]; cbn.
  - intros _ [| i] m Hm; discriminate Hm.
  - intros [].
  - intros [Hh [Ha Hrest]] i m Hm.
    destruct i as [| [| i]]; cbn in Hm.
    + injection Hm as <-. exact Hh.
    + injection Hm as <-. exact Ha.
    + change (Nat.even (S (S i))) with (Nat.even i).
      exact (IH rest Hrest i m Hm).
Qed.

Lemma exchange_is_exchanges (message : JsVal) (output : string) :
  exchanges [human message; ai output].
Proof. cbn. auto. Qed.

(** A stretch leaves the history alone or appends one exchange. *)
Lemma stretch_history (n n' : Node) :
  stretch n n' ->
  history n' = history n
  \/ exists message output,
       history n' = (history n ++ [human message; ai output])%list.
Proof. intros Hstep. destruct Hstep; cbn; eauto. Qed.

Lemma reachable_exchanges (n : Node) :
  reachable n -> exchanges (history n).
Proof.
  induction 1 as [| n n' _ IH Hstep].
  - exact I.
  - destruct (stretch_history n n' Hstep) as [Hsame | [m [o Happ]]].
    + rewrite Hsame. exact IH.
    + rewrite Happ.
      apply exchanges_app; [exact IH | apply exchange_is_exchanges].
Qed.

Section HistoryProperties.
Context `{Agent : Orchestrator}.

(** What one request does to the history. *)
Lemma chat_post_history (body : list (string * JsVal)) (srv : Server) :
  (status (fst (chat_post body srv)) = 200
   /\ exists output,
        fst (agent_run (prop body "message") srv) = Normal output
        /\ chatHistory (snd (chat_post body srv))
           = (chatHistory srv
              ++ [human (prop body "message"); ai output])%list)
  \/ (In (status (fst (chat_post body srv))) [400; 500]
      /\ chatHistory (snd (chat_post body srv)) = chatHistory srv).
Proof.
  destruct (truthy (prop body "message")) eqn:Htest.
  - rewrite (chat_post_truthy body srv Htest).
    destruct (agent_run (prop body "message") srv) as [[output | e] env'].
    + left. split; [reflexivity |]. exists output. split; reflexivity.
    + right. split; [cbn; auto | reflexivity].
  - rewrite (chat_post_falsy body srv Htest).
    right. split; [cbn; auto | reflexivity].
Qed.

Lemma chat_post_keeps_exchanges (body : list (string * JsVal))
    (srv : Server) :
  exchanges (chatHistory srv) ->
  exchanges (chatHistory (snd (chat_post body srv))).
Proof.
  intros Hinv.
  destruct (chat_post_history body srv)
    as [[_ [output [_ Hafter]]] | [_ Hafter]];
    rewrite Hafter.
  - apply exchanges_app; [exact Hinv | apply exchange_is_exchanges].
  - exact Hinv.
Qed.

Lemma serve_keeps_exchanges (bodies : list (list (string * JsVal))) :
  forall srv : Server,
    exchanges (chatHistory srv) ->
    exchanges (chatHistory (snd (serve bodies srv))).
Proof.
  induction bodies as [| body rest IH]; intros srv Hinv; cbn.
  - exact Hinv.
  - pose proof (chat_post_keeps_exchanges body srv Hinv) as Hstep.
    destruct (chat_post body srv) as [response srv'].
    specialize (IH srv' Hstep).
    destruct (serve rest srv') as [responses srv'']. exact IH.
Qed.

(** A request served on its own is an arrival followed at once by the
    answer of the agent executor. *)
Lemma chat_post_is_stretches (body : list (string * JsVal)) (srv : Server)
    (n : Node) :
  history n = chatHistory srv ->
  exists n',
    (stretch n n' \/ exists mid, stretch n mid /\ stretch mid n')
    /\ history n' = chatHistory (snd (chat_post body srv))
    /\ waiting n' = waiting n
    /\ sent n' = (sent n ++ [fst (chat_post body srv)])%list.
Proof.
  intros Hsame.
  destruct (truthy (prop body "message")) eqn:Htest.
  - rewrite (chat_post_truthy body srv Htest).
    pose proof (arrive_accepted n body Htest) as Harrive.
    destruct (agent_run (prop body "message") srv) as [[output | e] env'].
    + eexists. split.
      * right. eexists. split; [exact Harrive |].
        apply (agent_returned _ (waiting n) [] (prop body "message") output).
        reflexivity.
      * cbn. rewrite Hsame, app_nil_r. auto.
    + eexists. split.
      * right. eexists. split; [exact Harrive |].
        apply (agent_threw _ (waiting n) [] (prop body "message")).
        reflexivity.
      * cbn. rewrite Hsame, app_nil_r. auto.
  - rewrite (chat_post_falsy body srv Htest).
    eexists. split.
    + left. exact (arrive_rejected n body Htest).
    + cbn. auto.
Qed.

(** C10.  The chat history changes in one way only: when the agent
    executor has returned an output, the human turn and the ai turn are
    appended together, and the status is 200; a request answered with 400
    or 500 leaves the history as it was.  Hence the history has even length
    and alternates human, ai, human, ai, ...: after any sequence of
    requests served one after the other from the empty history, and also in
    every node that interleaved requests can reach. *)
Theorem chat_history_alternates :
  (forall (body : list (string * JsVal)) (srv : Server),
     let message := prop body "message" in
     let response := fst (chat_post body srv) in
     let after := chatHistory (snd (chat_post body srv)) in
     (status response = 200
      /\ exists output,
           fst (agent_run message srv) = Normal output
           /\ after = (chatHistory srv ++ [human message; ai output])%list)
     \/ (In (status response) [400; 500] /\ after = chatHistory srv))
  /\ (forall (bodies : list (list (string * JsVal))) (env0 : Env),
        let history :=
          chatHistory
            (snd (serve bodies {| chatHistory := []; env := env0 |})) in
        Nat.even (length history) = true /\ alternates history)
  /\ (forall n n' : Node,
        stretch n n' ->
        history n' = history n
        \/ exists message output,
             history n' = (history n ++ [human message; ai output])%list)
  /\ (forall n : Node,
        reachable n ->
        Nat.even (length (history n)) = true /\ alternates (history n)).
Proof.
  split; [| split; [| split]].
  - intros body srv. exact (chat_post_history body srv).
  - intros bodies env0.
    assert (Hinv : exchanges
      (chatHistory (snd (serve bodies {| chatHistory := []; env := env0 |})))).
    { apply serve_keeps_exchanges. exact I. }
    split.
    + apply exchanges_even_length. exact Hinv.
    + apply exchanges_alternates. exact Hinv.
  - exact stretch_history.
  - intros n Hreach.
    pose proof (reachable_exchanges n Hreach) as Hinv.
    split.
    + apply exchanges_even_length. exact Hinv.
    + apply exchanges_alternates. exact Hinv.
Qed.

End HistoryProperties.

(** *** The endpoint on examples *)

(** C3 as stated does not hold: a body that carries the message string [""]
    is answered with 400, although the agent executor would return on
    it. *)
Lemma empty_message_string_is_rejected :
  let body := [("message", JsString "")] in
  let srv := initial_server Sample.reachable in
  prop body "message" = JsString ""
  /\ fst (agent_run (Agent := Sample.agent) (JsString "") srv)
     = Normal "Hello!"
  /\ fst (chat_post (Agent := Sample.agent) body srv) = message_required
  /\ status message_required = 400.
Proof. cbv zeta. repeat split. Qed.

(** A first message to a fresh server. *)
Lemma history_is_extended_after_the_agent_returns_witness :
  let body := [("message", JsString "hi")] in
  let srv := initial_server Sample.reachable in
  truthy (prop body "message") = true
  /\ chatHistory (snd (chat_post (Agent := Sample.agent) body srv))
     = [human (JsString "hi"); ai "Hello!"].
Proof.
  cbv zeta. split; [reflexivity |].
  rewrite (proj2 (proj2 (history_is_extended_after_the_agent_returns
                           (Agent := Sample.agent)
                           [("message", JsString "hi")]
                           (initial_server Sample.reachable) eq_refl))).
  reflexivity.
Defined.

(** C6 as stated does not hold.  On the first message ["hi"] the agent
    executor is handed the empty history, not a history that ends with the
    new human turn; and when the agent executor fails, as on ["crash"], no
    human turn is appended at all. *)
Lemma message_is_not_appended_first :
  let srv := initial_server Sample.reachable in
  agent_calls
    (calls (env (snd (chat_post (Agent := Sample.agent)
                        [("message", JsString "hi")] srv))))
  = [CallAgent (JsString "hi") []]
  /\ ([] : list ChatMessage) <> [human (JsString "hi")]
  /\ status (fst (chat_post (Agent := Sample.agent)
                    [("message", JsString "crash")] srv)) = 500
  /\ chatHistory (snd (chat_post (Agent := Sample.agent)
                         [("message", JsString "crash")] srv)) = [].
Proof. cbv zeta. repeat split. discriminate. Qed.

(** ** The chunker *)

Lemma length_list_ascii_of_string (s : string) :
  length (list_ascii_of_string s) = String.length s.
Proof. induction s as [| c s IH]; cbn; [reflexivity | now rewrite IH]. Qed.

Lemma list_ascii_of_string_inv (chunks : list (list ascii)) :
  map list_ascii_of_string (map string_of_list_ascii chunks) = chunks.
Proof.
  induction chunks as [| c rest IH]; cbn; [reflexivity |].
  now rewrite list_ascii_of_string_of_list_ascii, IH.
Qed.

Section ChunkerProperties.
Variables (size overlap : nat).
Context `{Policy : Boundaries}.

Lemma chunks_from_short (fuel : nat) (text : list ascii) :
  length text <= size ->
  chunks_from size overlap (S fuel) text = [text].
Proof.
  intros Hshort. cbn [chunks_from].
  destruct (Nat.leb_spec (length text) size); [reflexivity | lia].
Qed.

Lemma chunks_from_long (fuel : nat) (text : list ascii) :
  size < length text ->
  chunks_from size overlap (S fuel) text
  = firstn (take overlap (firstn size text)) text
    :: chunks_from size overlap fuel
         (skipn (take overlap (firstn size text) - overlap) text).
Proof.
  intros Hlong. cbn [chunks_from].
  destruct (Nat.leb_spec (length text) size); [lia | reflexivity].
Qed.

Lemma chunk_empty : chunk size overlap "" = [].
Proof. reflexivity. Qed.

Lemma chunk_short (text : string) :
  text <> "" -> String.length text <= size ->
  chunk size overlap text = [text].
Proof.
  intros Hsome Hshort. unfold chunk, chunk_chars.
  destruct (list_ascii_of_string text) as [| c chars] eqn:Hchars.
  - destruct text; [congruence | discriminate Hchars].
  - rewrite <- Hchars, length_list_ascii_of_string.
    destruct (String.length text) as [| fuel] eqn:Hlen.
    + destruct text; [congruence | discriminate Hlen].
    + rewrite chunks_from_short.
      * cbn [map]. now rewrite string_of_list_ascii_of_string.
      * rewrite length_list_ascii_of_string. lia.
Qed.

(** From here on the overlap is smaller than the chunk size. *)
Hypothesis overlap_below_size : overlap < size.

(** A chunk cut from a full window is longer than the overlap and no longer
    than the window: the next chunk starts further on. *)
Lemma take_bounds (window : list ascii) :
  length window = size ->
  overlap < take overlap window <= size.
Proof.
  intros Hfull. unfold take.
  destruct (natural_boundary window) as [n |]; [| lia].
  destruct (overlap <? n)%nat eqn:Hlow; cbn [andb]; [| lia].
  destruct (n <=? length window)%nat eqn:Hhigh; [| lia].
  apply Nat.ltb_lt in Hlow. apply Nat.leb_le in Hhigh. lia.
Qed.

Lemma take_of_long_text (text : list ascii) :
  size < length text ->
  overlap < take overlap (firstn size text) <= size.
Proof.
  intros Hlong. apply take_bounds.
  rewrite length_firstn. lia.
Qed.

(** With enough fuel, the chunks of a text that is at least as long as the
    overlap, each without its first [overlap] characters, are the text
    without its first [overlap] characters. *)
Lemma chunks_from_tails : forall (fuel : nat) (text : list ascii),
  length text <= fuel -> 0 < fuel -> overlap <= length text ->
  concat (map (skipn overlap) (chunks_from size overlap fuel text))
  = skipn overlap text.
Proof.
  induction fuel as [| fuel IH]; intros text Hfuel Hpos Hlen; [lia |].
  destruct (Nat.le_gt_cases (length text) size) as [Hshort | Hlong].
  - rewrite chunks_from_short by exact Hshort.
    cbn. apply app_nil_r.
  - rewrite chunks_from_long by exact Hlong.
    pose proof (take_of_long_text text Hlong) as Hn.
    set (n := take overlap (firstn size text)) in *.
    cbn [map concat].
    rewrite IH; try (rewrite ?length_skipn; lia).
    rewrite skipn_skipn.
    replace (overlap + (n - overlap)) with n by lia.
    rewrite <- (firstn_skipn n text) at 3.
    rewrite skipn_app, length_firstn.
    replace (overlap - Nat.min n (length text)) with 0 by lia.
    reflexivity.
Qed.

Lemma strip_overlap_chunks_from (fuel : nat) (text : list ascii) :
  length text <= fuel -> 0 < fuel ->
  strip_overlap overlap (chunks_from size overlap fuel text) = text.
Proof.
  intros Hfuel Hpos. destruct fuel as [| fuel]; [lia |].
  destruct (Nat.le_gt_cases (length text) size) as [Hshort | Hlong].
  - rewrite chunks_from_short by exact Hshort.
    cbn. apply app_nil_r.
  - rewrite chunks_from_long by exact Hlong.
    pose proof (take_of_long_text text Hlong) as Hn.
    set (n := take overlap (firstn size text)) in *.
    cbn [strip_overlap].
    rewrite chunks_from_tails; try (rewrite ?length_skipn; lia).
    rewrite skipn_skipn.
    replace (overlap + (n - overlap)) with n by lia.
    apply firstn_skipn.
Qed.

(** The first chunk of a text begins as the text does. *)
Lemma chunks_from_head (fuel : nat) (text : list ascii) :
  exists first rest,
    chunks_from size overlap (S fuel) text = first :: rest
    /\ firstn overlap first = firstn overlap text.
Proof.
  destruct (Nat.le_gt_cases (length text) size) as [Hshort | Hlong].
  - rewrite chunks_from_short by exact Hshort. eauto.
  - rewrite chunks_from_long by exact Hlong.
    pose proof (take_of_long_text text Hlong) as Hn.
    do 2 eexists. split; [reflexivity |].
    rewrite firstn_firstn. f_equal. lia.
Qed.

Lemma chunks_from_carry : forall (fuel : nat) (text : list ascii),
  length text <= fuel ->
  carries_overlap overlap (chunks_from size overlap fuel text).
Proof.
  induction fuel as [| fuel IH]; intros text Hfuel; [exact I |].
  destruct (Nat.le_gt_cases (length text) size) as [Hshort | Hlong].
  - rewrite chunks_from_short by exact Hshort. exact I.
  - rewrite chunks_from_long by exact Hlong.
    pose proof (take_of_long_text text Hlong) as Hn.
    set (n := take overlap (firstn size text)) in *.
    assert (Hrest : length (skipn (n - overlap) text) <= fuel)
      by (rewrite length_skipn; lia).
    specialize (IH _ Hrest).
    destruct fuel as [| fuel]; [rewrite length_skipn in Hrest; lia |].
    destruct (chunks_from_head fuel (skipn (n - overlap) text))
      as [next [rest [Hchunks Hnext]]].
    rewrite Hchunks in IH |- *.
    cbn [carries_overlap]. split; [| exact IH].
    rewrite Hnext. unfold trailing.
    rewrite length_firstn.
    replace (Nat.min n (length text)) with n by lia.
    rewrite skipn_firstn_comm. f_equal. lia.
Qed.

Lemma chunk_chars_reassembles (text : list ascii) :
  strip_overlap overlap (chunk_chars size overlap text) = text.
Proof.
  destruct text as [| c text]; [reflexivity |].
  unfold chunk_chars. apply strip_overlap_chunks_from; cbn; lia.
Qed.

Lemma chunk_chars_carry (text : list ascii) :
  carries_overlap overlap (chunk_chars size overlap text).
Proof.
  destruct text as [| c text]; [exact I |].
  unfold chunk_chars. apply chunks_from_carry. lia.
Qed.

Lemma chunk_reassembles (text : string) :
  reassemble overlap (chunk size overlap text) = text.
Proof.
  unfold reassemble, chunk.
  rewrite list_ascii_of_string_inv, chunk_chars_reassembles.
  apply string_of_list_ascii_of_string.
Qed.

End ChunkerProperties.

Lemma overlap_below_chunk_size : chunkOverlap < chunkSize.
Proof. apply Nat.ltb_lt. reflexivity. Qed.

Section Splitter.
Context `{Policy : Boundaries}.

(** C7, as amended.  A text that is not empty and is shorter than the chunk
    size of 1000 characters is split into exactly one chunk, the text
    itself; the empty text is split into no chunk at all. *)
Theorem short_text_is_one_chunk (text : string) :
  text <> "" ->
  String.length text < chunkSize ->
  splitDocuments text = [text] /\ splitDocuments "" = [].
Proof.
  intros Hsome Hshort. split.
  - apply chunk_short; [exact Hsome | lia].
  - apply chunk_empty.
Qed.

(** C8.  Whatever the text, each chunk after the first begins with the
    last 200 characters of the chunk before it, and the chunks put back
    together without those carried characters are the text again. *)
Theorem chunks_reassemble_to_the_text (text : string) :
  carries_overlap chunkOverlap
    (map list_ascii_of_string (splitDocuments text))
  /\ reassemble chunkOverlap (splitDocuments text) = text.
Proof.
  split.
  - unfold splitDocuments, chunk. rewrite list_ascii_of_string_inv.
    apply chunk_chars_carry. exact overlap_below_chunk_size.
  - apply chunk_reassembles. exact overlap_below_chunk_size.
Qed.

End Splitter.

(** A one-sentence policy. *)
Lemma short_text_is_one_chunk_witness :
  "Meals are capped at 50 per day." <> ""
  /\ String.length "Meals are capped at 50 per day." < chunkSize
  /\ splitDocuments (Policy := Sample.sentences)
       "Meals are capped at 50 per day."
     = ["Meals are capped at 50 per day."].
Proof.
  assert (Hsome : "Meals are capped at 50 per day." <> "")
    by discriminate.
  assert (Hshort : String.length "Meals are capped at 50 per day."
                   < chunkSize)
    by (apply Nat.ltb_lt; reflexivity).
  split; [exact Hsome |]. split; [exact Hshort |].
  exact (proj1 (short_text_is_one_chunk (Policy := Sample.sentences)
                  "Meals are capped at 50 per day." Hsome Hshort)).
Defined.

(** C7 as stated does not hold: the empty text is shorter than the chunk
    size, and its chunks are not the one chunk [""]. *)
Lemma empty_text_is_no_chunk :
  String.length "" < chunkSize
  /\ splitDocuments (Policy := Sample.sentences) "" = []
  /\ splitDocuments (Policy := Sample.sentences) "" <> [""].
Proof.
  split; [apply Nat.ltb_lt; reflexivity |].
  split; [reflexivity | discriminate].
Qed.

(** ** Start-up *)

Section StartupProperties.
Context `{Pkg : Clients} `{Policy : Boundaries}.

(** X12.  Both scripts stop with the uncaught error [Expected
    SUPABASE_KEY] when the variable is missing or set to the empty string,
    before any client is constructed and whatever the other variables
    hold. *)
Lemma SUPABASE_KEY_is_required (process_env : list (string * string)) :
  truthy (getenv process_env "SUPABASE_KEY") = false ->
  index_main process_env = Uncaught (Error "Expected SUPABASE_KEY")
  /\ ingest_main process_env = Uncaught (Error "Expected SUPABASE_KEY").
Proof.
  intros Hmissing. unfold index_main, ingest_main.
  rewrite Hmissing. split; reflexivity.
Qed.

(** Both scripts stop with an uncaught error when [SUPABASE_URL] is
    missing or empty. *)
Lemma SUPABASE_URL_is_required (process_env : list (string * string)) :
  truthy (getenv process_env "SUPABASE_URL") = false ->
  (exists e, index_main process_env = Uncaught e)
  /\ (exists e, ingest_main process_env = Uncaught e).
Proof.
  intros Hmissing. unfold index_main, ingest_main.
  rewrite Hmissing.
  destruct (truthy (getenv process_env "SUPABASE_KEY")); cbn; eauto.
Qed.

(** The ingestion script stops with an uncaught error when
    [GOOGLE_API_KEY] is missing or empty. *)
Lemma ingest_requires_GOOGLE_API_KEY (process_env : list (string * string)) :
  truthy (getenv process_env "GOOGLE_API_KEY") = false ->
  exists e, ingest_main process_env = Uncaught e.
Proof.
  intros Hmissing. unfold ingest_main.
  rewrite Hmissing.
  destruct (truthy (getenv process_env "SUPABASE_KEY")); cbn; eauto.
  destruct (truthy (getenv process_env "SUPABASE_URL")); cbn; eauto.
Qed.

(** C9.  A required secret that is missing, or set to the empty string,
    is fatal at start-up, for each of [SUPABASE_KEY], [SUPABASE_URL] and
    [GOOGLE_API_KEY]: both scripts die with an uncaught error, and the
    backend never reaches [app.listen].  For the two Supabase secrets the
    scripts check themselves; so does [ingest.js] for [GOOGLE_API_KEY];
    [index.js] hands that key to the constructor of the chat model, at top
    level and before [app.listen], and the constructor refuses a missing
    key, which is the hypothesis on the imported package. *)
Theorem missing_secret_is_fatal
    (process_env : list (string * string)) (secret : string) :
  (forall key, truthy key = false ->
     exists e, new_ChatGoogleGenerativeAI key = Thrown e) ->
  In secret ["SUPABASE_KEY"; "SUPABASE_URL"; "GOOGLE_API_KEY"] ->
  truthy (getenv process_env secret) = false ->
  (exists e, index_main process_env = Uncaught e)
  /\ (forall p, index_main process_env <> Listening p)
  /\ (exists e, ingest_main process_env = Uncaught e).
Proof.
  intros Hmodel Hsecret Hmissing.
  assert (Hindex : exists e, index_main process_env = Uncaught e).
  { destruct Hsecret as [<- | [<- | [<- | []]]].
    - unfold index_main. rewrite Hmissing. cbn. eauto.
    - apply SUPABASE_URL_is_required. exact Hmissing.
    - unfold index_main.
      destruct (truthy (getenv process_env "SUPABASE_KEY")); cbn; eauto.
      destruct (truthy (getenv process_env "SUPABASE_URL")); cbn; eauto.
      destruct (createClient _ _) as [[] | e]; eauto.
      destruct (Hmodel _ Hmissing) as [e Hthrown].
      rewrite Hthrown. eauto. }
  split; [exact Hindex |]. split.
  - intros p Hlistening. destruct Hindex as [e Huncaught]. congruence.
  - destruct Hsecret as [<- | [<- | [<- | []]]].
    + unfold ingest_main. rewrite Hmissing. cbn. eauto.
    + apply SUPABASE_URL_is_required. exact Hmissing.
    + apply ingest_requires_GOOGLE_API_KEY. exact Hmissing.
Qed.

End StartupProperties.

Lemma sample_model_requires_a_key (key : JsVal) :
  truthy key = false ->
  exists e, new_ChatGoogleGenerativeAI (Clients := Sample.clients) key
            = Thrown e.
Proof.
  intros Hmissing. cbn. unfold Sample.requires. rewrite Hmissing.
  eexists. reflexivity.
Qed.

(** The backend started without [GOOGLE_API_KEY]. *)
Lemma missing_secret_is_fatal_witness :
  In "GOOGLE_API_KEY" ["SUPABASE_KEY"; "SUPABASE_URL"; "GOOGLE_API_KEY"]
  /\ truthy (getenv supabase_only "GOOGLE_API_KEY") = false
  /\ (exists e,
        index_main (Pkg := Sample.clients) supabase_only = Uncaught e)
  /\ (forall p,
        index_main (Pkg := Sample.clients) supabase_only <> Listening p)
  /\ (exists e,
        ingest_main (Pkg := Sample.clients) (Policy := Sample.sentences)
          supabase_only
        = Uncaught e).
Proof.
  assert (Hsecret :
    In "GOOGLE_API_KEY" ["SUPABASE_KEY"; "SUPABASE_URL"; "GOOGLE_API_KEY"])
    by (right; right; left; reflexivity).
  split; [exact Hsecret |]. split; [reflexivity |].
  exact (missing_secret_is_fatal (Pkg := Sample.clients)
           (Policy := Sample.sentences) supabase_only "GOOGLE_API_KEY"
           sample_model_requires_a_key Hsecret eq_refl).
Defined.

(** ** The code on examples *)

Example submit_bob_taxi :
  tool_call (expenseClaimTool (Libs := Sample.libraries)) Sample.bob_taxi
    (fresh_env Sample.reachable)
  = (Normal
       (Observation
          "Successfully submitted expense claim for bob@co.com. The details have been recorded in the database."),
     {| supabase :=
          {| claims :=
               [{| Claim.id := 1; Claim.email := "bob@co.com";
                   Claim.description := "taxi"; Claim.amount := 85 # 2;
                   Claim.status := "Submitted";
                   Claim.created_at := "2025-01-01T00:00:00Z" |}];
             outage := None; now := "2025-01-01T00:00:00Z" |};
        console := ["Claim saved to Supabase for bob@co.com"];
        calls :=
          [CallInsert
             {| NewClaim.email := "bob@co.com";
                NewClaim.description := "taxi"; NewClaim.amount := 85 # 2;
                NewClaim.status := "Submitted" |}] |}).
Proof. reflexivity. Qed.

Example submit_bob_taxi_unreachable :
  tool_call (expenseClaimTool (Libs := Sample.libraries)) Sample.bob_taxi
    (fresh_env Sample.unreachable)
  = (Normal
       (Observation
          "Failed to submit expense claim due to an internal error."),
     {| supabase := Sample.unreachable;
        console :=
          ["Error saving claim: Error saving to database: connection refused"];
        calls :=
          [CallInsert
             {| NewClaim.email := "bob@co.com";
                NewClaim.description := "taxi"; NewClaim.amount := 85 # 2;
                NewClaim.status := "Submitted" |}] |}).
Proof. reflexivity. Qed.

Example listing_after_submission :
  fst (tool_call (getUserClaimsTool (Libs := Sample.libraries))
         [("email", JsString "bob@co.com")]
         (snd (tool_call (expenseClaimTool (Libs := Sample.libraries))
                 Sample.bob_taxi (fresh_env Sample.reachable))))
  = Normal
      (Observation
         ("Here are the past claims for bob@co.com:" ++ newline
          ++ "- Claim ID 1: taxi for $85/2 (Status: Submitted, Submitted on: 2025-01-01T00:00:00Z)")).
Proof. reflexivity. Qed.

Example five_requests :
  let '(responses, srv) :=
    serve (Agent := Sample.agent)
      [[("message", JsString "hi")]; [];
       [("message", JsString "crash")]; [("message", JsString "")];
       [("message", JsString "bob@co.com")]]
      (initial_server Sample.reachable) in
  map status responses = [200; 400; 500; 400; 200]
  /\ chatHistory srv
     = [human (JsString "hi"); ai "Hello!";
        human (JsString "bob@co.com");
        ai "No past claims found for bob@co.com."].
Proof. split; reflexivity. Qed.

Example chunks_of_a_sentence :
  chunk (Policy := Sample.sentences) 10 3
    "Hello. This is a test of the chunker, ok."
  = ["Hello."; "lo. This i"; "s is a tes"; "test of th"; " the chunk";
     "unker, ok."].
Proof. reflexivity. Qed.

Example ingest_with_all_secrets :
  ingest_main (Pkg := Sample.clients) (Policy := Sample.sentences)
    [("SUPABASE_KEY", "k"); ("SUPABASE_URL", "u"); ("GOOGLE_API_KEY", "g")]
  = Ingested ["Meals are capped at 50 per day."].
Proof. reflexivity. Qed.

(** * Further properties *)

(** ** Strings *)

Lemma append_assoc (a b c : string) : (a ++ b) ++ c = a ++ (b ++ c).
Proof. induction a as [| x a IH]; cbn; [reflexivity | now rewrite IH]. Qed.

Lemma append_nil_r (a : string) : a ++ "" = a.
Proof. induction a as [| x a IH]; cbn; [reflexivity | now rewrite IH]. Qed.

Lemma includes_refl (s : string) : includes s s.
Proof. exists "", "". cbn. now rewrite append_nil_r. Qed.

Lemma includes_inside (before after haystack needle : string) :
  includes haystack needle ->
  includes (before ++ haystack ++ after) needle.
Proof.
  intros [b [a ->]]. exists (before ++ b), (a ++ after).
  now rewrite !append_assoc.
Qed.

Lemma includes_after (before haystack needle : string) :
  includes haystack needle -> includes (before ++ haystack) needle.
Proof.
  intros Hin. rewrite <- (append_nil_r haystack).
  now apply includes_inside.
Qed.

Lemma includes_before (after haystack needle : string) :
  includes haystack needle -> includes (haystack ++ after) needle.
Proof. intros Hin. now apply (includes_inside "" after). Qed.

Lemma includes_trans (a b c : string) :
  includes a b -> includes b c -> includes a c.
Proof. intros [x [y ->]] Hbc. now apply includes_inside. Qed.

Lemma includes_concat (sep : string) (parts : list string) (part : string) :
  In part parts -> includes (String.concat sep parts) part.
Proof.
  induction parts as [| first rest IH]; intros Hin; [destruct Hin |].
  destruct rest as [| second rest].
  - destruct Hin as [<- | []]. apply includes_refl.
  - change (String.concat sep (first :: second :: rest))
      with (first ++ sep ++ String.concat sep (second :: rest)).
    destruct Hin as [<- | Hin].
    + apply includes_before, includes_refl.
    + apply includes_after, includes_after, IH, Hin.
Qed.

(** ** The look-up tool *)

Section LookupProperties.
Context `{Libs : Libraries}.

Lemma format_claim_includes_description (claim : Claim.t) :
  includes (format_claim claim) (Claim.description claim).
Proof.
  unfold format_claim.
  do 3 apply includes_after. apply includes_before, includes_refl.
Qed.

Lemma format_claim_includes_status (claim : Claim.t) :
  includes (format_claim claim) (Claim.status claim).
Proof.
  unfold format_claim.
  do 7 apply includes_after. apply includes_before, includes_refl.
Qed.

Lemma listing_includes_claim (email : string) (data : list Claim.t)
    (claim : Claim.t) :
  In claim data -> includes (listing email data) (format_claim claim).
Proof.
  intros Hin. unfold listing.
  do 4 apply includes_after.
  apply includes_concat, in_map, Hin.
Qed.

Lemma listing_is_no_other_message (email : string) (data : list Claim.t) :
  listing email data <> no_claims_message email
  /\ listing email data <> fetch_failed_message.
Proof. split; discriminate. Qed.

Lemma getUserClaimsTool_func_reachable (email : string) (env : Env) :
  outage (supabase env) = None ->
  getUserClaimsTool_func email env
  = (Normal (lookup_text email (supabase env)),
     {| supabase := supabase env; console := console env;
        calls := (calls env ++ [CallSelect email])%list |}).
Proof.
  intros Hup.
  unfold getUserClaimsTool_func, try_catch, bind, claims_select_eq_email,
    bind, record_call, ret.
  cbn. rewrite Hup. cbn.
  unfold lookup_text, claims_of.
  destruct (filter _ (claims (supabase env))); reflexivity.
Qed.

Lemma getUserClaimsTool_func_outage (email : string) (env : Env)
    (fault : DbFault) :
  outage (supabase env) = Some fault ->
  exists line,
    getUserClaimsTool_func email env
    = (Normal fetch_failed_message,
       {| supabase := supabase env;
          console := (console env ++ [line])%list;
          calls := (calls env ++ [CallSelect email])%list |}).
Proof.
  intros Hdown.
  unfold getUserClaimsTool_func, try_catch, bind, claims_select_eq_email,
    bind, record_call, console_error, console_log, ret, throw.
  cbn. rewrite Hdown. destruct fault as [m | e]; cbn; eexists; reflexivity.
Qed.

End LookupProperties.

Section LookupTheorems.
Context `{Libs : Libraries}.

(** X1.  The look-up handler never throws and never writes: whatever the
    state of the store, it returns a text, leaves the table as it was and
    sends exactly one select request.  The text is the failure message
    when the store answers with an error or the request rejects, the
    no-claims message when there is no row for the e-mail, and the listing
    of the rows otherwise. *)
Theorem get_user_claims_only_reads (email : string) (env : Env) :
  let run := getUserClaimsTool_func email env in
  fst run
  = Normal (match outage (supabase env) with
            | Some _ => fetch_failed_message
            | None => lookup_text email (supabase env)
            end)
  /\ supabase (snd run) = supabase env
  /\ calls (snd run) = (calls env ++ [CallSelect email])%list.
Proof.
  cbv zeta. destruct (outage (supabase env)) as [fault |] eqn:Hstore.
  - destruct (getUserClaimsTool_func_outage email env fault Hstore)
      as [line Hrun].
    rewrite Hrun. cbn. auto.
  - rewrite (getUserClaimsTool_func_reachable email env Hstore).
    cbn. auto.
Qed.

(** X2.  On a reachable store every stored claim of the e-mail is shown:
    the text returned contains the line of that claim, with its
    description and its status, and it is neither the no-claims message
    nor the failure message. *)
Theorem listing_shows_every_claim (email : string) (env : Env)
    (claim : Claim.t) :
  outage (supabase env) = None ->
  In claim (claims (supabase env)) ->
  Claim.email claim = email ->
  exists text,
    fst (getUserClaimsTool_func email env) = Normal text
    /\ includes text (format_claim claim)
    /\ includes text (Claim.description claim)
    /\ includes text (Claim.status claim)
    /\ text <> no_claims_message email
    /\ text <> fetch_failed_message.
Proof.
  intros Hup Hstored Hemail.
  rewrite (getUserClaimsTool_func_reachable email env Hup). cbn [fst].
  assert (Hin : In claim (claims_of email (supabase env))).
  { unfold claims_of. apply filter_In. split; [exact Hstored |].
    rewrite Hemail. apply String.eqb_refl. }
  unfold lookup_text.
  destruct (claims_of email (supabase env)) as [| first rest] eqn:Hrows;
    [destruct Hin |].
  eexists. split; [reflexivity |].
  pose proof (listing_includes_claim email (first :: rest) claim Hin)
    as Hline.
  repeat split.
  - exact Hline.
  - exact (includes_trans _ _ _ Hline
             (format_claim_includes_description claim)).
  - exact (includes_trans _ _ _ Hline (format_claim_includes_status claim)).
  - apply listing_is_no_other_message.
  - apply listing_is_no_other_message.
Qed.


(** X4.  Look-ups are separated by e-mail: a submission under one e-mail
    does not change what the look-up for another e-mail returns, whether
    the store is reachable or not. *)
Theorem other_submissions_are_not_listed (args : SubmitArgs.t)
    (email : string) (env : Env) :
  SubmitArgs.email args <> email ->
  fst (getUserClaimsTool_func email (snd (expenseClaimTool_func args env)))
  = fst (getUserClaimsTool_func email env).
Proof.
  intros Hother.
  destruct (outage (supabase env)) as [fault |] eqn:Hstore.
  - destruct (expenseClaimTool_func_outage args env fault Hstore)
      as [line Hsubmit].
    rewrite Hsubmit. cbn [snd].
    destruct (getUserClaimsTool_func_outage email env fault Hstore)
      as [line1 Hbefore].
    destruct (getUserClaimsTool_func_outage email
                {| supabase := supabase env;
                   console := (console env ++ [line])%list;
                   calls :=
                     (calls env ++ [CallInsert (submitted_row args)])%list |}
                fault Hstore)
      as [line2 Hafter].
    rewrite Hbefore, Hafter. reflexivity.
  - rewrite (expenseClaimTool_func_reachable args env Hstore). cbn [snd].
    rewrite getUserClaimsTool_func_reachable by reflexivity.
    rewrite (getUserClaimsTool_func_reachable email env Hstore).
    cbn [fst supabase]. f_equal.
    unfold lookup_text, claims_of. cbn [claims].
    rewrite filter_app. cbn [filter stored Claim.email submitted_row
                               NewClaim.email].
    apply String.eqb_neq in Hother. rewrite Hother.
    now rewrite app_nil_r.
Qed.

End LookupTheorems.

Lemma listing_shows_every_claim_witness :
  outage (supabase (fresh_env Sample.with_bob)) = None
  /\ In Sample.bob_row (claims (supabase (fresh_env Sample.with_bob)))
  /\ Claim.email Sample.bob_row = "bob@co.com"
  /\ exists text,
       fst (getUserClaimsTool_func (Libs := Sample.libraries) "bob@co.com"
              (fresh_env Sample.with_bob))
       = Normal text
       /\ includes text (format_claim (Libs := Sample.libraries)
                           Sample.bob_row)
       /\ includes text (Claim.description Sample.bob_row)
       /\ includes text (Claim.status Sample.bob_row)
       /\ text <> no_claims_message "bob@co.com"
       /\ text <> fetch_failed_message.
Proof.
  split; [reflexivity |]. split; [left; reflexivity |].
  split; [reflexivity |].
  exact (listing_shows_every_claim (Libs := Sample.libraries) "bob@co.com"
           (fresh_env Sample.with_bob) Sample.bob_row
           eq_refl (or_introl eq_refl) eq_refl).
Defined.


Lemma other_submissions_are_not_listed_witness :
  SubmitArgs.email Sample.bob_args <> "amy@co.com"
  /\ fst (getUserClaimsTool_func (Libs := Sample.libraries) "amy@co.com"
            (snd (expenseClaimTool_func
                    Sample.bob_args (fresh_env Sample.reachable))))
     = fst (getUserClaimsTool_func (Libs := Sample.libraries) "amy@co.com"
              (fresh_env Sample.reachable)).
Proof.
  assert (Hother : SubmitArgs.email Sample.bob_args <> "amy@co.com")
    by discriminate.
  split; [exact Hother |].
  exact (other_submissions_are_not_listed (Libs := Sample.libraries)
           Sample.bob_args "amy@co.com" (fresh_env Sample.reachable)
           Hother).
Defined.

(** ** The schemas *)

Section SchemaTheorems.
Context `{Libs : Libraries}.

(** X5.  The schema of the submit-claim tool accepts an input exactly when
    its e-mail is a string that passes the e-mail check, its description
    is a string and its amount is a number, of whatever sign; the parsed
    arguments are then those three values, and any other property of the
    input is ignored. *)
Theorem expenseClaimTool_schema_accepts
    (input : list (string * JsVal)) (args : SubmitArgs.t) :
  expenseClaimTool_schema input = Zod.Success args
  <-> exists email description amount,
        prop input "email" = JsString email
        /\ is_email email = true
        /\ prop input "description" = JsString description
        /\ prop input "amount" = JsNumber amount
        /\ args = {| SubmitArgs.email := email;
                     SubmitArgs.description := description;
                     SubmitArgs.amount := amount |}.
Proof.
  unfold expenseClaimTool_schema. split.
  - destruct (prop input "email") as [| | | | email |]; cbn;
      try discriminate.
    destruct (is_email email) eqn:Hok; cbn; [| discriminate].
    destruct (prop input "description") as [| | | | description |]; cbn;
      try discriminate.
    destruct (prop input "amount") as [| | | amount | |]; cbn;
      try discriminate.
    intros Hparsed. injection Hparsed as <-.
    exists email, description, amount. auto.
  - intros [email [description [amount
      [Hemail [Hok [Hdescription [Hamount ->]]]]]]].
    rewrite Hemail, Hdescription, Hamount. cbn. rewrite Hok. reflexivity.
Qed.

(** X6.  The schema of the look-up tool accepts an input exactly when its
    e-mail is a string that passes the e-mail check; the parsed argument
    is then that string, and any other property of the input is ignored.
    An input without an e-mail, or with one that is not a string, is
    refused. *)
Theorem getUserClaimsTool_schema_accepts
    (input : list (string * JsVal)) (email : string) :
  getUserClaimsTool_schema input = Zod.Success email
  <-> prop input "email" = JsString email /\ is_email email = true.
Proof.
  unfold getUserClaimsTool_schema. split.
  - destruct (prop input "email") as [| | | | address |]; cbn;
      try discriminate.
    destruct (is_email address) eqn:Hok; cbn; [| discriminate].
    intros Hparsed. injection Hparsed as <-. auto.
  - intros [Hemail Hok]. rewrite Hemail. cbn. rewrite Hok. reflexivity.
Qed.

End SchemaTheorems.

(** ** Runs of requests *)

Section ServeTheorems.
Context `{Agent : Orchestrator}.

Lemma chat_post_answered (body : list (string * JsVal)) (srv : Server) :
  chatHistory (snd (chat_post body srv))
  = (chatHistory srv ++ answered [body] [fst (chat_post body srv)])%list
  /\ length (answered [body] [fst (chat_post body srv)])
     = 2 * count_ok [fst (chat_post body srv)].
Proof.
  destruct (truthy (prop body "message")) eqn:Htest.
  - rewrite (chat_post_truthy body srv Htest).
    destruct (agent_run (prop body "message") srv) as [[output | e] env'];
      cbn; rewrite ?app_nil_r; auto.
  - rewrite (chat_post_falsy body srv Htest).
    cbn. rewrite app_nil_r. auto.
Qed.

Lemma answered_cons (body : list (string * JsVal))
    (bodies : list (list (string * JsVal))) (response : Response)
    (responses : list Response) :
  answered (body :: bodies) (response :: responses)
  = (answered [body] [response] ++ answered bodies responses)%list.
Proof. cbn. now rewrite app_nil_r. Qed.

Lemma count_ok_cons (response : Response) (responses : list Response) :
  count_ok (response :: responses)
  = count_ok [response] + count_ok responses.
Proof.
  unfold count_ok. cbn.
  destruct (status response =? 200)%nat; reflexivity.
Qed.

(** X7.  A run of requests accounts for the whole history: every request
    gets exactly one response, and the history after the run is the
    history before it followed, in order, by one human/ai exchange for each
    request answered with status 200, with the message that was received
    and the text that was sent back.  Requests answered with 400 or 500
    leave no trace, so the history grows by twice the number of 200
    responses. *)
Theorem serve_accounts_for_the_history
    (bodies : list (list (string * JsVal))) (srv : Server) :
  let responses := fst (serve bodies srv) in
  let after := chatHistory (snd (serve bodies srv)) in
  length responses = length bodies
  /\ after = (chatHistory srv ++ answered bodies responses)%list
  /\ length after = length (chatHistory srv) + 2 * count_ok responses.
Proof.
  cbv zeta. revert srv.
  induction bodies as [| body rest IH]; intros srv.
  - cbn. rewrite app_nil_r. auto.
  - cbn [serve].
    destruct (chat_post_answered body srv) as [Hstep Hlen].
    destruct (chat_post body srv) as [response srv'].
    cbn [fst snd] in Hstep, Hlen.
    destruct (IH srv') as [Hresponses [Hhistory Hcount]].
    destruct (serve rest srv') as [responses srv''].
    cbn [fst snd] in *.
    split; [cbn; now rewrite Hresponses |].
    split.
    + rewrite Hhistory, Hstep, (answered_cons body rest response responses).
      symmetry. apply app_assoc.
    + rewrite Hcount, Hstep, length_app, Hlen,
        (count_ok_cons response responses). lia.
Qed.

(** X8.  The session identifier that the client sends is not used: once a
    request of one session has been answered, the agent executor is
    started for the next request, of whatever session, on a history that
    ends with the exchange of the first. *)
Theorem next_request_sees_the_exchange
    (m1 m2 : JsVal) (session1 session2 : string) (output : string)
    (srv : Server) :
  truthy m1 = true ->
  fst (agent_run m1 srv) = Normal output ->
  let body1 := [("message", m1); ("sessionId", JsString session1)] in
  let body2 := [("message", m2); ("sessionId", JsString session2)] in
  let srv1 := snd (chat_post body1 srv) in
  let context := (chatHistory srv ++ [human m1; ai output])%list in
  chatHistory srv1 = context
  /\ agent_run (prop body2 "message") srv1
     = agentExecutor_invoke m2 context
         (snd (record_call (CallAgent m2 context) (env srv1))).
Proof.
  intros Htruthy Hanswer. cbv zeta.
  assert (Hhistory :
    chatHistory
      (snd (chat_post [("message", m1); ("sessionId", JsString session1)]
              srv))
    = (chatHistory srv ++ [human m1; ai output])%list).
  { rewrite chat_post_truthy by exact Htruthy.
    change (prop [("message", m1); ("sessionId", JsString session1)]
              "message") with m1.
    destruct (agent_run m1 srv) as [[text | e] env'];
      cbn in Hanswer; [| discriminate].
    injection Hanswer as ->. reflexivity. }
  split; [exact Hhistory |].
  unfold agent_run. rewrite Hhistory. reflexivity.
Qed.

End ServeTheorems.

Lemma next_request_sees_the_exchange_witness :
  let srv := initial_server Sample.reachable in
  truthy (JsString "hi") = true
  /\ fst (agent_run (Agent := Sample.agent) (JsString "hi") srv)
     = Normal "Hello!"
  /\ chatHistory
       (snd (chat_post (Agent := Sample.agent)
               [("message", JsString "hi"); ("sessionId", JsString "tab-1")]
               srv))
     = [human (JsString "hi"); ai "Hello!"].
Proof.
  cbv zeta. split; [reflexivity |]. split; [reflexivity |].
  exact (proj1 (next_request_sees_the_exchange (Agent := Sample.agent)
                  (JsString "hi") (JsString "what did I say?")
                  "tab-1" "tab-2" "Hello!"
                  (initial_server Sample.reachable) eq_refl eq_refl)).
Defined.

(** X9.  With two requests in flight, the history follows the order in
    which the agent executor answers, not the order in which the requests
    arrived: the server can reach a node in which the exchange of the
    second request stands before the exchange of the first. *)
Theorem history_follows_completion_order
    (body1 body2 : list (string * JsVal)) (output1 output2 : string) :
  truthy (prop body1 "message") = true ->
  truthy (prop body2 "message") = true ->
  exists n,
    reachable n
    /\ waiting n = []
    /\ sent n = [replied output2; replied output1]
    /\ history n
       = [human (prop body2 "message"); ai output2;
          human (prop body1 "message"); ai output1].
Proof.
  intros Hfirst Hsecond.
  set (m1 := prop body1 "message") in *.
  set (m2 := prop body2 "message") in *.
  assert (Hone : reachable
            {| history := []; waiting := [m1]; sent := [] |}).
  { exact (reachable_stretch _ _ reachable_idle
             (arrive_accepted idle body1 Hfirst)). }
  assert (Htwo : reachable
            {| history := []; waiting := [m1; m2]; sent := [] |}).
  { exact (reachable_stretch _ _ Hone
             (arrive_accepted
                {| history := []; waiting := [m1]; sent := [] |}
                body2 Hsecond)). }
  assert (Hthree : reachable
            {| history := [human m2; ai output2]; waiting := [m1];
               sent := [replied output2] |}).
  { exact (reachable_stretch _ _ Htwo
             (agent_returned
                {| history := []; waiting := [m1; m2]; sent := [] |}
                [m1] [] m2 output2 eq_refl)). }
  assert (Hfour : reachable
            {| history := [human m2; ai output2; human m1; ai output1];
               waiting := [];
               sent := [replied output2; replied output1] |}).
  { exact (reachable_stretch _ _ Hthree
             (agent_returned
                {| history := [human m2; ai output2]; waiting := [m1];
                   sent := [replied output2] |}
                [] [] m1 output1 eq_refl)). }
  eexists. split; [exact Hfour |]. cbn. auto.
Qed.

Lemma history_follows_completion_order_witness :
  truthy (prop [("message", JsString "first")] "message") = true
  /\ truthy (prop [("message", JsString "second")] "message") = true
  /\ exists n,
       reachable n
       /\ waiting n = []
       /\ sent n = [replied "two"; replied "one"]
       /\ history n
          = [human (JsString "second"); ai "two";
             human (JsString "first"); ai "one"].
Proof.
  split; [reflexivity |]. split; [reflexivity |].
  exact (history_follows_completion_order
           [("message", JsString "first")] [("message", JsString "second")]
           "one" "two" eq_refl eq_refl).
Defined.

(** ** How the scripts end *)

Section OutcomeTheorems.
Context `{Pkg : Clients} `{Policy : Boundaries}.

(** X10.  The backend either listens on port 8000 or dies with an uncaught
    error; it never calls [process.exit].  It listens only when
    [SUPABASE_KEY] and [SUPABASE_URL] are set to non-empty values and the
    Supabase client, the model, the embeddings and the agent were all
    built.  Otherwise the error is that of the first check that failed,
    [SUPABASE_KEY] before [SUPABASE_URL], or that of the constructor that
    threw. *)
Theorem index_main_outcome (process_env : list (string * string)) :
  let key := getenv process_env "SUPABASE_KEY" in
  let url := getenv process_env "SUPABASE_URL" in
  let google := getenv process_env "GOOGLE_API_KEY" in
  match index_main process_env with
  | Listening p =>
      p = 8000%Z
      /\ truthy key = true /\ truthy url = true
      /\ createClient url key = Normal tt
      /\ new_ChatGoogleGenerativeAI google = Normal tt
      /\ new_GoogleGenerativeAIEmbeddings google = Normal tt
      /\ assemble_agent = Normal tt
  | Uncaught e =>
      (truthy key = false /\ e = Error "Expected SUPABASE_KEY")
      \/ (truthy key = true /\ truthy url = false
          /\ e = Error "Expected SUPABASE_URL")
      \/ (truthy key = true /\ truthy url = true
          /\ (createClient url key = Thrown e
              \/ new_ChatGoogleGenerativeAI google = Thrown e
              \/ new_GoogleGenerativeAIEmbeddings google = Thrown e
              \/ assemble_agent = Thrown e))
  | Exited _ => False
  | Ingested _ => False
  end.
Proof.
  cbv zeta. unfold index_main.
  destruct (truthy (getenv process_env "SUPABASE_KEY")); cbn; [| auto].
  destruct (truthy (getenv process_env "SUPABASE_URL")); cbn; [| auto].
  destruct (createClient _ _) as [[] | e]; [| auto 10].
  destruct (new_ChatGoogleGenerativeAI _) as [[] | e]; [| auto 10].
  destruct (new_GoogleGenerativeAIEmbeddings _) as [[] | e]; [| auto 10].
  destruct assemble_agent as [[] | e]; [| auto 10].
  auto 10.
Qed.

(** X11.  The ingestion script dies with an uncaught error only on its
    three checks, in the order [SUPABASE_KEY], [SUPABASE_URL],
    [GOOGLE_API_KEY].  Once they pass, every failure of a step ends in
    [process.exit(1)], never in an uncaught error and with no other exit
    code; and the run completes only when the document was read and the
    chunks of its text, all of them, were handed to the vector store. *)
Theorem ingest_main_outcome (process_env : list (string * string)) :
  let key := getenv process_env "SUPABASE_KEY" in
  let url := getenv process_env "SUPABASE_URL" in
  let google := getenv process_env "GOOGLE_API_KEY" in
  match ingest_main process_env with
  | Uncaught e =>
      (truthy key = false /\ e = Error "Expected SUPABASE_KEY")
      \/ (truthy key = true /\ truthy url = false
          /\ e = Error "Expected SUPABASE_URL")
      \/ (truthy key = true /\ truthy url = true /\ truthy google = false
          /\ e = Error "Expected GOOGLE_API_KEY")
  | Exited code =>
      code = 1
      /\ truthy key = true /\ truthy url = true /\ truthy google = true
      /\ ((exists e, extractRawText docxFilename = Thrown e)
          \/ (exists e, createClient url key = Thrown e)
          \/ (exists e, new_GoogleGenerativeAIEmbeddings google = Thrown e)
          \/ (exists text e,
                extractRawText docxFilename = Normal text
                /\ fromDocuments (splitDocuments text) = Thrown e))
  | Ingested chunks =>
      truthy key = true /\ truthy url = true /\ truthy google = true
      /\ exists text,
           extractRawText docxFilename = Normal text
           /\ chunks = splitDocuments text
           /\ createClient url key = Normal tt
           /\ new_GoogleGenerativeAIEmbeddings google = Normal tt
           /\ fromDocuments chunks = Normal tt
  | Listening _ => False
  end.
Proof.
  cbv zeta. unfold ingest_main.
  destruct (truthy (getenv process_env "SUPABASE_KEY")); cbn; [| auto].
  destruct (truthy (getenv process_env "SUPABASE_URL")); cbn; [| auto].
  destruct (truthy (getenv process_env "GOOGLE_API_KEY")); cbn;
    [| auto 10].
  unfold run.
  destruct (extractRawText docxFilename) as [text | e]; [| eauto 10].
  destruct (createClient _ _) as [[] | e]; [| eauto 10].
  destruct (new_GoogleGenerativeAIEmbeddings _) as [[] | e]; [| eauto 10].
  destruct (fromDocuments (splitDocuments text)) as [[] | e] eqn:Hstore.
  - repeat split. exists text. auto.
  - repeat split. right. right. right. exists text, e. auto.
Qed.

End OutcomeTheorems.

(** A secret set to the empty string counts as missing. *)
Lemma SUPABASE_KEY_is_required_witness :
  let process_env :=
    [("SUPABASE_KEY", ""); ("SUPABASE_URL", "https://project.supabase.co");
     ("GOOGLE_API_KEY", "g")] in
  truthy (getenv process_env "SUPABASE_KEY") = false
  /\ index_main (Pkg := Sample.clients) process_env
     = Uncaught (Error "Expected SUPABASE_KEY")
  /\ ingest_main (Pkg := Sample.clients) (Policy := Sample.sentences)
       process_env
     = Uncaught (Error "Expected SUPABASE_KEY").
Proof.
  cbv zeta. split; [reflexivity |].
  exact (SUPABASE_KEY_is_required (Pkg := Sample.clients)
           (Policy := Sample.sentences)
           [("SUPABASE_KEY", "");
            ("SUPABASE_URL", "https://project.supabase.co");
            ("GOOGLE_API_KEY", "g")] eq_refl).
Defined.

(** ** The chat client *)

Section ClientTheorems.
Variable base : option string.
Variable axios_post : string -> list (string * JsVal) -> Completion JsVal.

Lemma handleSubmit_empty (app : App.State) :
  App.message app = "" ->
  App.handleSubmit base axios_post app
  = App.toast_error "Please enter a message." app.
Proof. intros Hempty. unfold App.handleSubmit. now rewrite Hempty. Qed.

(** X13.  A submit posts at most one request, and none for an empty
    input: the requests posted after [handleSubmit] are those posted
    before, followed, when the input is not empty, by one request to the
    [/chat] path of the API that carries the text of the input and the
    session identifier.  An empty input changes nothing on the screen but
    a toast. *)
Theorem handleSubmit_posts_at_most_once (app : App.State) :
  let after := App.handleSubmit base axios_post app in
  App.posted after
  = (App.posted app
     ++ (if String.eqb (App.message app) "" then []
         else [((App.apiUrl base ++ "/chat")%string,
                [("message", JsString (App.message app));
                 ("sessionId", JsString (App.sessionId app))])]))%list
  /\ App.sessionId after = App.sessionId app
  /\ (if String.eqb (App.message app) "" then
        App.chatHistory after = App.chatHistory app
        /\ App.loading after = App.loading app
        /\ App.toasts after
           = (App.toasts app ++ ["Please enter a message."])%list
      else True).
Proof.
  cbv zeta. unfold App.handleSubmit.
  destruct (String.eqb (App.message app) "").
  - cbn. rewrite app_nil_r. auto.
  - destruct (axios_post _ _) as [data | e];
      [destruct (member data "response") as [content | e] |];
      cbn; auto.
Qed.

(** What a submit of a non-empty input leaves behind. *)
Lemma handleSubmit_nonempty (app : App.State) :
  App.message app <> "" ->
  let after := App.handleSubmit base axios_post app in
  let user := {| role := "user"; content := JsString (App.message app) |} in
  let reply :=
    match axios_post (App.apiUrl base ++ "/chat")
            (App.request_body app) with
    | Normal data => member data "response"
    | Thrown e => Thrown e
    end in
  App.loading after = false
  /\ App.message after = ""
  /\ match reply with
     | Normal content =>
         App.chatHistory after
         = (App.chatHistory app
            ++ [user; {| role := "ai"; content := content |}])%list
         /\ App.toasts after = App.toasts app
     | Thrown _ =>
         App.chatHistory after = (App.chatHistory app ++ [user])%list
         /\ App.toasts after
            = (App.toasts app
               ++ ["Failed to get response. Please check the console."])%list
     end.
Proof.
  intros Hsome. cbv zeta. unfold App.handleSubmit.
  apply String.eqb_neq in Hsome. rewrite Hsome.
  destruct (axios_post _ _) as [data | e];
    [destruct (member data "response") as [content | e] |];
    cbn; rewrite <- ?app_assoc; auto.
Qed.

(** X14.  A submit of a non-empty input always settles: whatever the
    request comes back with, the input ends up cleared and enabled again
    ([loading] is false), and the user's turn stays on the screen.  When
    the response has a payload, its [response] is shown as the ai turn and
    no toast is raised; when the request is rejected, or the response has
    no payload, the history ends with the user's turn and the failure toast
    is raised. *)
Theorem handleSubmit_settles (app : App.State) :
  App.message app <> "" ->
  let after := App.handleSubmit base axios_post app in
  let user := {| role := "user"; content := JsString (App.message app) |} in
  let reply :=
    match axios_post (App.apiUrl base ++ "/chat")
            (App.request_body app) with
    | Normal data => member data "response"
    | Thrown e => Thrown e
    end in
  App.loading after = false
  /\ App.message after = ""
  /\ match reply with
     | Normal content =>
         App.chatHistory after
         = (App.chatHistory app
            ++ [user; {| role := "ai"; content := content |}])%list
         /\ App.toasts after = App.toasts app
     | Thrown _ =>
         App.chatHistory after = (App.chatHistory app ++ [user])%list
         /\ App.toasts after
            = (App.toasts app
               ++ ["Failed to get response. Please check the console."])%list
     end.
Proof.
  intros Hsome. cbv zeta. unfold App.handleSubmit.
  apply String.eqb_neq in Hsome. rewrite Hsome.
  destruct (axios_post _ _) as [data | e];
    [destruct (member data "response") as [content | e] |];
    cbn; rewrite <- ?app_assoc; auto.
Qed.

End ClientTheorems.

Lemma handleSubmit_settles_witness :
  let app := App.onChange "hi" (App.mount "tab-1") in
  App.message app <> ""
  /\ App.chatHistory
       (App.handleSubmit None
          (fun _ _ => Normal (JsObject [("response", JsString "Hello!")]))
          app)
     = [{| role := "user"; content := JsString "hi" |};
        {| role := "ai"; content := JsString "Hello!" |}].
Proof.
  cbv zeta.
  assert (Hsome : App.message (App.onChange "hi" (App.mount "tab-1")) <> "")
    by discriminate.
  split; [exact Hsome |].
  exact (proj1 (proj2 (proj2 (handleSubmit_settles None
           (fun _ _ => Normal (JsObject [("response", JsString "Hello!")]))
           (App.onChange "hi" (App.mount "tab-1")) Hsome)))).
Defined.

(** ** Client and server together *)

Section RoundTripTheorems.
Context `{Agent : Orchestrator}.

(** X15.  The client never earns a 400: the body it posts for a non-empty
    input carries that input as its message, which passes the guard of the
    endpoint, so the answer has status 200 or 500 and the agent executor is
    asked. *)
Theorem client_requests_pass_the_guard (app : App.State) (srv : Server) :
  App.message app <> "" ->
  let body := App.request_body app in
  prop body "message" = JsString (App.message app)
  /\ truthy (prop body "message") = true
  /\ In (status (fst (chat_post body srv))) [200; 500].
Proof.
  intros Hsome. cbv zeta.
  assert (Htruthy : truthy (prop (App.request_body app) "message") = true).
  { cbn. apply String.eqb_neq in Hsome. now rewrite Hsome. }
  split; [reflexivity |]. split; [exact Htruthy |].
  rewrite (chat_post_truthy _ srv Htruthy).
  destruct (agent_run _ srv) as [[output | e] env']; cbn; auto.
Qed.

(** X16.  One submit against the server, over an HTTP client that resolves
    with the payload of a 200 response and rejects a 500 response.  When
    the agent executor returns, client and server record the same exchange:
    both histories grow by the message and by the same ai turn.  When it
    fails, the two part: the client keeps the user's turn on the screen,
    the server's history does not have it. *)
Theorem round_trip_histories
    (deliver : Response -> Completion JsVal) (base : option string)
    (app : App.State) (srv : Server) :
  (forall r, status r = 200 -> deliver r = Normal (JsObject (json r))) ->
  (forall r, status r = 500 -> exists e, deliver r = Thrown e) ->
  App.message app <> "" ->
  let m := JsString (App.message app) in
  let app' := fst (round_trip deliver base app srv) in
  let srv' := snd (round_trip deliver base app srv) in
  App.loading app' = false
  /\ match fst (agent_run m srv) with
     | Normal output =>
         App.chatHistory app'
         = (App.chatHistory app
            ++ [{| role := "user"; content := m |}; ai output])%list
         /\ chatHistory srv'
            = (chatHistory srv ++ [human m; ai output])%list
     | Thrown _ =>
         App.chatHistory app'
         = (App.chatHistory app ++ [{| role := "user"; content := m |}])%list
         /\ chatHistory srv' = chatHistory srv
     end.
Proof.
  intros Hok Hfail Hsome. cbv zeta.
  pose proof (handleSubmit_nonempty base
                (fun _ _ =>
                   deliver (fst (chat_post (App.request_body app) srv)))
                app Hsome) as Hclient.
  cbv zeta in Hclient. destruct Hclient as [Hloading [_ Hreply]].
  unfold round_trip. cbn [fst snd].
  split; [exact Hloading |].
  apply String.eqb_neq in Hsome. rewrite Hsome.
  assert (Htruthy : truthy (prop (App.request_body app) "message") = true).
  { cbn. now rewrite Hsome. }
  rewrite (chat_post_truthy _ srv Htruthy) in *.
  change (prop (App.request_body app) "message")
    with (JsString (App.message app)) in *.
  destruct (agent_run (JsString (App.message app)) srv)
    as [[output | e] env'];
    cbn [fst snd chatHistory] in *.
  - rewrite (Hok (replied output) eq_refl) in Hreply |- *.
    cbn in Hreply. destruct Hreply as [Hhistory _].
    split; [exact Hhistory | reflexivity].
  - destruct (Hfail agent_failed eq_refl) as [err Hrejected].
    rewrite Hrejected in Hreply |- *. destruct Hreply as [Hhistory _].
    split; [exact Hhistory | reflexivity].
Qed.

End RoundTripTheorems.

Lemma client_requests_pass_the_guard_witness :
  let app := App.onChange "hi" (App.mount "tab-1") in
  App.message app <> ""
  /\ In (status (fst (chat_post (Agent := Sample.agent)
                        (App.request_body app)
                        (initial_server Sample.reachable))))
        [200; 500].
Proof.
  cbv zeta.
  assert (Hsome : App.message (App.onChange "hi" (App.mount "tab-1")) <> "")
    by discriminate.
  split; [exact Hsome |].
  exact (proj2 (proj2 (client_requests_pass_the_guard
           (Agent := Sample.agent)
           (App.onChange "hi" (App.mount "tab-1"))
           (initial_server Sample.reachable) Hsome))).
Defined.

Lemma sample_axios_resolves (r : Response) :
  status r = 200 -> Sample.axios r = Normal (JsObject (json r)).
Proof. intros Hstatus. unfold Sample.axios. now rewrite Hstatus. Qed.

Lemma sample_axios_rejects (r : Response) :
  status r = 500 -> exists e, Sample.axios r = Thrown e.
Proof.
  intros Hstatus. unfold Sample.axios. rewrite Hstatus. eexists. reflexivity.
Qed.

Lemma round_trip_histories_witness :
  let app := App.onChange "crash" (App.mount "tab-1") in
  let srv := initial_server Sample.reachable in
  App.message app <> ""
  /\ App.chatHistory
       (fst (round_trip (Agent := Sample.agent) Sample.axios None app srv))
     = [{| role := "user"; content := JsString "crash" |}]
  /\ chatHistory
       (snd (round_trip (Agent := Sample.agent) Sample.axios None app srv))
     = [].
Proof.
  cbv zeta.
  assert (Hsome :
    App.message (App.onChange "crash" (App.mount "tab-1")) <> "")
    by discriminate.
  split; [exact Hsome |].
  exact (proj2 (round_trip_histories (Agent := Sample.agent) Sample.axios
                  None (App.onChange "crash" (App.mount "tab-1"))
                  (initial_server Sample.reachable)
                  sample_axios_resolves sample_axios_rejects Hsome)).
Defined.

(** ** Sessions at the client *)

Lemma turns_ai_follows_user (h : list ChatMessage) :
  turns h ->
  forall i m,
    nth_error h i = Some m -> role m = "ai" ->
    exists j u, i = S j /\ nth_error h j = Some u /\ role u = "user".
Proof.
  assert (Hkeep : forall (h tail : list ChatMessage) j u,
            nth_error h j = Some u -> nth_error (h ++ tail) j = Some u).
  { intros h0 tail j u Hj. rewrite nth_error_app1; [exact Hj |].
    apply nth_error_Some. congruence. }
  induction 1 as [| h content _ IH | h content reply _ IH]; intros i m Hm Hai.
  - destruct i; discriminate Hm.
  - destruct (Nat.lt_ge_cases i (length h)) as [Hin | Hout].
    + rewrite nth_error_app1 in Hm by exact Hin.
      destruct (IH i m Hm Hai) as [j [u [Hi [Hj Hu]]]].
      exists j, u. auto.
    + rewrite nth_error_app2 in Hm by exact Hout.
      destruct (i - length h) as [| [| k]]; cbn in Hm; try discriminate Hm.
      injection Hm as <-. discriminate Hai.
  - destruct (Nat.lt_ge_cases i (length h)) as [Hin | Hout].
    + rewrite nth_error_app1 in Hm by exact Hin.
      destruct (IH i m Hm Hai) as [j [u [Hi [Hj Hu]]]].
      exists j, u. auto.
    + rewrite nth_error_app2 in Hm by exact Hout.
      destruct (i - length h) as [| [| k]] eqn:Hoffset; cbn in Hm;
        try discriminate Hm.
      * injection Hm as <-. discriminate Hai.
      * exists (length h), {| role := "user"; content := content |}.
        split; [lia |]. split; [| reflexivity].
        rewrite nth_error_app2 by lia. now rewrite Nat.sub_diag.
      * destruct k; discriminate Hm.
Qed.

Section SessionTheorems.
Variable base : option string.

Lemma handleSubmit_keeps_turns (text : string) (outcome : Completion JsVal)
    (app : App.State) :
  turns (App.chatHistory app) -> App.loading app = false ->
  let after :=
    App.handleSubmit base (fun _ _ => outcome) (App.onChange text app) in
  turns (App.chatHistory after) /\ App.loading after = false.
Proof.
  intros Hturns Hidle. cbv zeta.
  destruct (String.eqb_spec text "") as [-> | Hsome].
  - rewrite handleSubmit_empty by reflexivity. cbn. auto.
  - destruct (handleSubmit_nonempty base (fun _ _ => outcome)
                (App.onChange text app) Hsome)
      as [Hloading [_ Hhistory]].
    cbv zeta in Hhistory. split; [| exact Hloading].
    destruct (match outcome with
              | Normal data => member data "response"
              | Thrown e => Thrown e
              end) as [content | e];
      destruct Hhistory as [-> _]; cbn [App.chatHistory App.onChange];
      now constructor.
Qed.

Lemma submits_keep_turns (session : list (string * Completion JsVal)) :
  forall app : App.State,
    turns (App.chatHistory app) -> App.loading app = false ->
    turns (App.chatHistory (submits base session app))
    /\ App.loading (submits base session app) = false.
Proof.
  induction session as [| [text outcome] rest IH]; intros app Hturns Hidle.
  - cbn. auto.
  - cbn [submits].
    destruct (handleSubmit_keeps_turns text outcome app Hturns Hidle)
      as [Hturns' Hidle'].
    exact (IH _ Hturns' Hidle').
Qed.

(** X17.  Through any session of the client, whatever is typed and
    whatever the requests come back with, the history on the screen is
    made of user turns, each with or without a reply after it: every ai
    turn stands right after a user turn, so the history never starts with
    an ai turn and never shows two in a row.  After the last submit the
    input is enabled again. *)
Theorem client_history_pairs_replies
    (session : list (string * Completion JsVal)) (uuid : string) :
  let app := submits base session (App.mount uuid) in
  App.loading app = false
  /\ turns (App.chatHistory app)
  /\ forall i m,
       nth_error (App.chatHistory app) i = Some m -> role m = "ai" ->
       exists j u,
         i = S j /\ nth_error (App.chatHistory app) j = Some u
         /\ role u = "user".
Proof.
  cbv zeta.
  destruct (submits_keep_turns session (App.mount uuid) turns_none eq_refl)
    as [Hturns Hidle].
  split; [exact Hidle |]. split; [exact Hturns |].
  exact (turns_ai_follows_user _ Hturns).
Qed.

End SessionTheorems.

Example failed_submits_stack_user_turns :
  App.chatHistory
    (submits None
       [("hi", Thrown (Error "Network Error"));
        ("", Thrown (Error "never sent"));
        ("hi again",
         Normal (JsObject [("response", JsString "Hello!")]))]
       (App.mount "tab-1"))
  = [{| role := "user"; content := JsString "hi" |};
     {| role := "user"; content := JsString "hi again" |};
     {| role := "ai"; content := JsString "Hello!" |}].
Proof. reflexivity. Qed.

(** ** The handler on any request *)

Section HandlerTheorems.
Context `{Agent : Orchestrator}.

Lemma chat_handler_parsed (req_body : JsVal) (srv : Server) :
  nullish req_body = false ->
  chat_handler req_body srv
  = (Normal (fst (chat_post (own_fields req_body) srv)),
     snd (chat_post (own_fields req_body) srv)).
Proof.
  intros Hparsed. unfold chat_handler. rewrite Hparsed.
  destruct (chat_post (own_fields req_body) srv). reflexivity.
Qed.

Lemma chat_handler_missing_body (req_body : JsVal) (srv : Server) :
  nullish req_body = true ->
  chat_handler req_body srv = (Thrown cannot_destructure, srv).
Proof. intros Hmissing. unfold chat_handler. now rewrite Hmissing. Qed.

(** C3, as the code has it.  For every request whose body was parsed
    ([req.body] is not undefined or null), the handler tests the message
    for truthiness.  A message that is missing or is the empty string gets
    status 400 and [{error}]; any other message string (every non-empty
    one) gets status 200 and [{response}] when the agent executor returns,
    and status 500 and [{error}] when it fails.  The handler sends no
    other status. *)
Theorem chat_handler_responses (req_body : JsVal) (srv : Server) :
  nullish req_body = false ->
  let message := prop (own_fields req_body) "message" in
  fst (chat_handler req_body srv)
  = Normal (if truthy message then
              match fst (agent_run message srv) with
              | Normal output => replied output
              | Thrown _ => agent_failed
              end
            else message_required)
  /\ (forall response,
        fst (chat_handler req_body srv) = Normal response ->
        In (status response) [200; 400; 500])
  /\ status message_required = 400
  /\ status agent_failed = 500
  /\ (forall output, status (replied output) = 200)
  /\ truthy JsUndefined = false
  /\ truthy (JsString "") = false
  /\ (forall c s, truthy (JsString (String c s)) = true).
Proof.
  intros Hparsed. cbv zeta.
  rewrite (chat_handler_parsed req_body srv Hparsed). cbn [fst].
  destruct (chat_post_responses (own_fields req_body) srv)
    as [Hresponse [Hstatus _]].
  cbv zeta in Hresponse, Hstatus.
  split; [now rewrite Hresponse |].
  split; [intros response Hsent; injection Hsent as <-; exact Hstatus |].
  repeat split.
Qed.

(** C4, where the code departs from it.  For a request without a message
    the agent executor is not invoked and the chat history, like the rest
    of the server, is left as it was.  When a body was parsed, the handler
    answers with status 400 and the error payload.  When no body was
    parsed and [req.body] is undefined, the handler throws while it
    destructures, before its guard, and sends no 400 of its own. *)
Theorem chat_handler_without_message (req_body : JsVal) (srv : Server) :
  prop (own_fields req_body) "message" = JsUndefined ->
  fst (chat_handler req_body srv)
  = (if nullish req_body then Thrown cannot_destructure
     else Normal message_required)
  /\ status message_required = 400
  /\ json message_required = [("error", JsString "Message is required")]
  /\ snd (chat_handler req_body srv) = srv
  /\ agent_calls (calls (env (snd (chat_handler req_body srv))))
     = agent_calls (calls (env srv))
  /\ chatHistory (snd (chat_handler req_body srv)) = chatHistory srv.
Proof.
  intros Hmissing.
  assert (Hrun :
    chat_handler req_body srv
    = (if nullish req_body then Thrown cannot_destructure
       else Normal message_required, srv)).
  { destruct (nullish req_body) eqn:Hbody.
    - apply chat_handler_missing_body. exact Hbody.
    - rewrite (chat_handler_parsed req_body srv Hbody).
      rewrite chat_post_falsy by (rewrite Hmissing; reflexivity).
      reflexivity. }
  rewrite Hrun. cbn. auto 6.
Qed.

End HandlerTheorems.

(** A first message. *)
Lemma chat_handler_responses_witness :
  let req_body := JsObject [("message", JsString "hi")] in
  nullish req_body = false
  /\ fst (chat_handler (Agent := Sample.agent) req_body
            (initial_server Sample.reachable))
     = Normal (replied "Hello!").
Proof.
  cbv zeta. split; [reflexivity |].
  rewrite (proj1 (chat_handler_responses (Agent := Sample.agent)
                    (JsObject [("message", JsString "hi")])
                    (initial_server Sample.reachable) eq_refl)).
  reflexivity.
Defined.

(** A request without a body, and one with an empty object for a body. *)
Lemma chat_handler_without_message_witness :
  prop (own_fields JsUndefined) "message" = JsUndefined
  /\ chat_handler (Agent := Sample.agent) JsUndefined
       (initial_server Sample.reachable)
     = (Thrown cannot_destructure, initial_server Sample.reachable)
  /\ fst (chat_handler (Agent := Sample.agent) (JsObject [])
            (initial_server Sample.reachable))
     = Normal message_required.
Proof.
  split; [reflexivity |].
  destruct (chat_handler_without_message (Agent := Sample.agent) JsUndefined
              (initial_server Sample.reachable) eq_refl)
    as [Hanswer [_ [_ [Hserver _]]]].
  split.
  - rewrite (surjective_pairing
               (chat_handler JsUndefined (initial_server Sample.reachable))).
    rewrite Hanswer, Hserver. reflexivity.
  - exact (proj1 (chat_handler_without_message (Agent := Sample.agent)
                    (JsObject []) (initial_server Sample.reachable)
                    eq_refl)).
Defined.
